(** * Phishing-detection backend ([backend/src/app.py]): a shallow embedding

    The module initialises a credential rotator ([KeyManager]) from the
    process environment, loads a keyword corpus from a CSV file, and serves
    one endpoint, [classify_email], that first tries a remote AI backend
    (rotating credentials on rate-limit errors) and falls back to a local
    weighted keyword scan ([local_keyword_scan]).

    Conventions of the embedding:
    - Python [str] is [string]; the two Unicode-table driven methods
      [str.lower] and [str.strip] are section variables ([lower], [strip]),
      with an ASCII instance ([ascii_lower], [ascii_strip]) to run examples;
    - Python values that come out of [json.loads] / [request.get_json] are
      the inductive [json]; [JNull] is Python's [None]; numbers are rationals
      (the decimal value of the literal);
    - a Python computation that may raise is a value of [py A]; code that
      also mutates process-wide state threads a [World];
    - the dict [PHISHING_KEYWORDS] is an insertion-ordered association list
      with unique keys; the set [found_categories] is a [gset string]. *)

From Stdlib Require Import String Ascii ZArith QArith.
From stdpp Require Import base list strings gmap.

Local Open Scope string_scope.

(** ** Python exceptions and the error monad *)

Inductive exn : Type :=
| ZeroDivisionError
| IndexError
| AttributeError
| OSError
| CsvError.

Inductive py (A : Type) : Type :=
| Ret (a : A)
| Raise (e : exn).
Arguments Ret {A} a.
Arguments Raise {A} e.

(** Sequencing: an exception raised by the first computation propagates.
    Registered with stdpp's monad classes, so [x ← m; k] reads as the
    Python statement sequence [x = m; k]. *)
#[global] Instance py_ret : MRet py := fun _ a => Ret a.
#[global] Instance py_bind : MBind py := fun _ _ k m =>
  match m with
  | Ret a => k a
  | Raise e => Raise e
  end.

(** ** Strings *)

(** [needle in hay] on Python strings: [needle] occurs as a contiguous
    substring of [hay]; the empty string occurs in every string. *)
Fixpoint contains (needle hay : string) : bool :=
  String.prefix needle hay ||
  match hay with
  | EmptyString => false
  | String _ rest => contains needle rest
  end.

(** ASCII instance of [str.lower]. *)
Definition ascii_lower_char (c : ascii) : ascii :=
  let n := nat_of_ascii c in
  if (65 <=? n)%nat && (n <=? 90)%nat then ascii_of_nat (n + 32) else c.

Fixpoint ascii_lower (s : string) : string :=
  match s with
  | EmptyString => EmptyString
  | String c rest => String (ascii_lower_char c) (ascii_lower rest)
  end.

(** ASCII instance of [str.strip]: the characters below 128 for which
    [str.isspace] holds (9 to 13 and 28 to 32). *)
Definition ascii_space (c : ascii) : bool :=
  let n := nat_of_ascii c in
  ((9 <=? n)%nat && (n <=? 13)%nat) || ((28 <=? n)%nat && (n <=? 32)%nat).

Fixpoint lstrip (s : string) : string :=
  match s with
  | EmptyString => EmptyString
  | String c rest => if ascii_space c then lstrip rest else s
  end.

Definition ascii_strip (s : string) : string :=
  String.rev (lstrip (String.rev (lstrip s))).

(** ** JSON values as Python sees them *)

Local Set Warnings "-register-all".

Inductive json : Type :=
| JNull
| JBool (b : bool)
| JNum (q : Q)
| JStr (s : string)
| JArr (items : list json)
| JObj (fields : list (string * json)).

(** Python truthiness ([if not data]). *)
Definition truthy (v : json) : bool :=
  match v with
  | JNull => false
  | JBool b => b
  | JNum q => negb (Qeq_bool q 0)
  | JStr s => negb (String.eqb s "")
  | JArr items => negb (Nat.eqb (length items) 0)
  | JObj fields => negb (Nat.eqb (length fields) 0)
  end.

(** Lookup in an association list used as a dict. *)
Fixpoint assoc {V} (k : string) (d : list (string * V)) : option V :=
  match d with
  | [] => None
  | (k', v) :: rest => if String.eqb k k' then Some v else assoc k rest
  end.

(** [d.get(key, default)]: only a dict has the method. *)
Definition py_get (d : json) (key : string) (dflt : json) : py json :=
  match d with
  | JObj fields => Ret (default dflt (assoc key fields))
  | _ => Raise AttributeError
  end.

(** The dict literal returned by [local_keyword_scan]. *)
Definition result (label reason : string) (confidence : Q) : json :=
  JObj [("label", JStr label); ("reason", JStr reason);
        ("confidence", JNum confidence)].

(** The ClassificationResult shape of the data model: a dict whose [label]
    is one of the three risk labels, whose [reason] is a string and whose
    [confidence] is a number between 0 and 1. *)
Definition is_label (s : string) : bool :=
  String.eqb s "phishing" || String.eqb s "suspicious" || String.eqb s "safe".

Definition well_formed_result (v : json) : bool :=
  match v with
  | JObj fields =>
    match assoc "label" fields, assoc "reason" fields,
          assoc "confidence" fields with
    | Some (JStr l), Some (JStr _), Some (JNum c) =>
      is_label l && Qle_bool 0 c && Qle_bool c 1
    | _, _, _ => false
    end
  | _ => false
  end.

(** ** Credential rotator (class [KeyManager]) *)

Record KeyManager : Type := {
  keys : list string;
  current_index : nat
}.

Definition KeyManager_init (ks : list string) : KeyManager :=
  {| keys := ks; current_index := 0 |}.

(** [get_client]: the client is identified with the key it is bound to;
    [self.keys[self.current_index]] raises [IndexError] out of range. *)
Definition get_client (km : KeyManager) : py string :=
  match keys km !! current_index km with
  | Some key => Ret key
  | None => Raise IndexError
  end.

(** [rotate]: [%] by a zero length raises [ZeroDivisionError]. *)
Definition rotate (km : KeyManager) : py KeyManager :=
  if Nat.eqb (length (keys km)) 0 then Raise ZeroDivisionError
  else Ret {| keys := keys km;
              current_index := (current_index km + 1) mod length (keys km) |}.

(** [n] consecutive calls of [rotate]. *)
Fixpoint rotate_n (n : nat) (km : KeyManager) : py KeyManager :=
  match n with
  | 0 => Ret km
  | S n' => km' ← rotate km; rotate_n n' km'
  end.

(** [API_KEYS]: the values of the environment variables whose name starts
    with [GROQ_API_KEY_], empty values removed. *)
Definition load_api_keys (environ : list (string * string)) : list string :=
  List.filter (fun v => negb (String.eqb v ""))
    (List.map snd
       (List.filter (fun kv => String.prefix "GROQ_API_KEY_" (fst kv)) environ)).

(** ** Keyword corpus *)

Definition dict : Type := list (string * string).

(** [d[k] = v] on an insertion-ordered dict. *)
Fixpoint dict_set (k v : string) (d : dict) : dict :=
  match d with
  | [] => [(k, v)]
  | (k', v') :: rest =>
    if String.eqb k k' then (k', v) :: rest else (k', v') :: dict_set k v rest
  end.

(** A row as [csv.DictReader] delivers it: [row.get] gives [None] for a
    column the header or the row lacks. *)
Record row : Type := {
  Keyword : option string;
  Category : option string
}.

(** What reading [keywords.csv] does: [open] (or reading the header) raises,
    or the reader delivers some rows and then ends normally or raises. *)
Inductive csv_source : Type :=
| Unreadable
| Rows (delivered : list row) (broken : bool).

(** Category weights of [local_keyword_scan]. *)
Definition weights : list (string * nat) :=
  [("Urgency", 5); ("Financial", 4); ("Crypto", 5); ("Government", 5);
   ("Security/Account", 3); ("IT/Admin", 3); ("Workplace", 2); ("Legal", 4);
   ("E-commerce", 2); ("Generic/Suspicious", 2); ("Social", 1)].

(** [weights.get(category, 1)] *)
Definition weight (category : string) : nat :=
  default 1 (assoc category weights).

(** ** The remote backend and the observable world *)

(** What one pass through the [try] body of [classify_email] does: it
    returns the JSON value parsed from the reply ([Completed]), or some
    statement of it (building the client, the remote call, indexing the
    reply, [json.loads]) raises an exception [e] with [str(e) = msg]. *)
Inductive outcome : Type :=
| Completed (body : json)
| Failed (msg : string).

(** The remote service: attempt number within the request, credential,
    sender and text of the prompt. *)
Definition Backend : Type := nat -> string -> json -> json -> outcome.

Inductive event : Type :=
| Called (key : string)
| Rotated (index : nat).

(** Process-wide mutable state ([key_manager]) and the trace of remote calls
    and rotations made so far. *)
Record World : Type := {
  key_manager : KeyManager;
  trace : list event
}.

Definition is_call (e : event) : bool :=
  match e with Called _ => true | Rotated _ => false end.

Definition is_rotation (e : event) : bool :=
  match e with Called _ => false | Rotated _ => true end.

Definition calls (t : list event) : nat := length (List.filter is_call t).
Definition rotations (t : list event) : nat :=
  length (List.filter is_rotation t).

(** Result of the attempt loop: the [return] inside the [try], leaving the
    loop without a result (exhausted, or [break]), or an exception that
    escapes the [except] handler. *)
Inductive ai_result : Type :=
| Answered (body : json)
| NoResult
| Crashed (e : exn).

Record App : Type := {
  app_key_manager : KeyManager;
  PHISHING_KEYWORDS : dict
}.

Section Program.

(** Python's [str.lower] and [str.strip]. *)
Variable lower : string -> string.
Variable strip : string -> string.

(** *** [load_keywords] *)

(** Body of the [for row in reader] loop. *)
Definition load_row (keywords : dict) (r : row) : dict :=
  match Keyword r, Category r with
  | Some kw, Some cat =>
    if negb (String.eqb kw "") && negb (String.eqb cat "")
    then dict_set (lower (strip kw)) (strip cat) keywords
    else keywords
  | _, _ => keywords
  end.

(** Body of the [try]: the dict as the body leaves it, and how it ended. *)
Definition load_try (src : csv_source) (keywords : dict) : dict * py unit :=
  match src with
  | Unreadable => (keywords, Raise OSError)
  | Rows delivered broken =>
    (fold_left load_row delivered keywords,
     if broken then Raise CsvError else Ret tt)
  end.

(** [except Exception] swallows whatever the body raised; the dict is
    returned as it is then. *)
Definition load_keywords (src : csv_source) : py dict :=
  let '(keywords, _) := load_try src [] in Ret keywords.

(** *** [local_keyword_scan] *)

(** [text.lower()] on an arbitrary value: only [str] has the method. *)
Definition py_lower (text : json) : py string :=
  match text with
  | JStr s => Ret (lower s)
  | _ => Raise AttributeError
  end.

(** Body of the [for word, category in PHISHING_KEYWORDS.items()] loop,
    on the pair [(total_risk_score, found_categories)]. *)
Definition scan_step (text_lower : string) (acc : nat * gset string)
    (entry : string * string) : nat * gset string :=
  let '(word, category) := entry in
  if contains (lower word) text_lower
  then (fst acc + weight category, snd acc ∪ {[ category ]})
  else acc.

Definition scan_loop (keywords : dict) (text_lower : string)
  : nat * gset string :=
  fold_left (scan_step text_lower) keywords (0, ∅).

(** [', '.join(found_categories)] *)
Definition join_categories (found : gset string) : string :=
  String.concat ", " (elements found).

(** DECISION LOGIC *)
Definition decide_label (total_risk_score : nat) (found : gset string) : json :=
  if (5 <=? total_risk_score)%nat then
    result "phishing"
      ("High risk detected. Matches themes: " +:+ join_categories found +:+ ".")
      0.8
  else if (2 <=? total_risk_score)%nat then
    result "suspicious"
      ("Caution: Found " +:+ join_categories found +:+ " related phrases.")
      0.5
  else
    result "safe" "No high-risk phishing signatures detected in the text." 0.4.

Definition local_keyword_scan (keywords : dict) (text : json) : py json :=
  text_lower ← py_lower text;
  let '(total_risk_score, found_categories) := scan_loop keywords text_lower in
  Ret (decide_label total_risk_score found_categories).

(** *** [classify_email] *)

(** The test of the [except] handler on [str(e).lower()]. *)
Definition rate_limited (msg : string) : bool :=
  let err_msg := lower msg in
  contains "429" err_msg || contains "rate_limit_exceeded" err_msg.

(** One pass through the [try] body. The only exception [get_client] itself
    raises is the [IndexError] of the list access. *)
Definition try_body (backend : Backend) (sender email_text : json)
    (attempt : nat) (w : World) : outcome * World :=
  match get_client (key_manager w) with
  | Raise _ => (Failed "list index out of range", w)
  | Ret key =>
    (backend attempt key sender email_text,
     {| key_manager := key_manager w; trace := trace w ++ [Called key] |})
  end.

(** [for attempt in range(len(API_KEYS))], with [todo] iterations left. *)
Fixpoint attempt_loop (backend : Backend) (sender email_text : json)
    (todo attempt : nat) (w : World) : ai_result * World :=
  match todo with
  | 0 => (NoResult, w)
  | S todo' =>
    match try_body backend sender email_text attempt w with
    | (Completed body, w1) => (Answered body, w1)
    | (Failed msg, w1) =>
      if rate_limited msg then
        match rotate (key_manager w1) with
        | Ret km =>
          attempt_loop backend sender email_text todo' (S attempt)
            {| key_manager := km;
               trace := trace w1 ++ [Rotated (current_index km)] |}
        | Raise e => (Crashed e, w1)
        end
      else (NoResult, w1)
    end
  end.

Definition no_data : json := JObj [("error", JStr "No data provided")].

(** The endpoint, from the test of [data] on. [data] is the value that
    [request.get_json()] returned: how Flask reads and parses the request
    body, and the HTTP errors it raises when the body is no JSON, are not
    part of the embedding. [API_KEYS] and [key_manager.keys] are one list
    object, so the loop bound is the length of the rotator's key list. An
    exception that reaches the caller of the view function is [Raise]. *)
Definition classify_email (keywords : dict) (backend : Backend)
    (data : json) (w : World) : py (json * nat) * World :=
  if negb (truthy data) then (Ret (no_data, 400), w)
  else
    match py_get data "sender_email" (JStr "Unknown") with
    | Raise e => (Raise e, w)
    | Ret sender =>
      match py_get data "text" (JStr "") with
      | Raise e => (Raise e, w)
      | Ret email_text =>
        match attempt_loop backend sender email_text
                (length (keys (key_manager w))) 0 w with
        | (Answered body, w') => (Ret (body, 200), w')
        | (Crashed e, w') => (Raise e, w')
        | (NoResult, w') =>
          (fallback_result ← local_keyword_scan keywords email_text;
           Ret (fallback_result, 200), w')
        end
      end
    end.

(** *** Module initialisation *)

Definition startup (environ : list (string * string)) (src : csv_source)
  : py App :=
  let API_KEYS := load_api_keys environ in
  let key_manager := KeyManager_init API_KEYS in
  keywords ← load_keywords src;
  Ret {| app_key_manager := key_manager; PHISHING_KEYWORDS := keywords |}.

(** A request served by a started application, from a fresh trace. *)
Definition serve (app : App) (backend : Backend) (data : json)
  : py (json * nat) * World :=
  classify_email (PHISHING_KEYWORDS app) backend data
    {| key_manager := app_key_manager app; trace := [] |}.

End Program.

(** ** Definitions used to state the properties *)

(** Following the specification's words: the phrases of the corpus that are
    substrings of the lowercased text, and the sum of the weights of their
    categories. *)
Definition spec_matches (keywords : dict) (text_lower : string) : dict :=
  List.filter (fun entry => contains (fst entry) text_lower) keywords.

Definition spec_total (keywords : dict) (text_lower : string) : nat :=
  sum_list (List.map (fun entry => weight (snd entry))
              (spec_matches keywords text_lower)).

(** The categories named by the weight table. *)
Definition known_category (c : string) : bool :=
  existsb (String.eqb c) (List.map fst weights).

(** A row the loop of [load_keywords] stores: both columns present and
    non-empty. *)
Definition usable_row (r : row) : bool :=
  match Keyword r, Category r with
  | Some kw, Some cat => negb (String.eqb kw "") && negb (String.eqb cat "")
  | _, _ => false
  end.

(** The rows the reader delivered before the read ended or failed. *)
Definition rows_read (src : csv_source) : list row :=
  match src with
  | Unreadable => []
  | Rows delivered _ => delivered
  end.

(** What [classify_email] reads from a dict payload. *)
Definition sender_of (fields : list (string * json)) : json :=
  default (JStr "Unknown") (assoc "sender_email" fields).

Definition text_of (fields : list (string * json)) : json :=
  default (JStr "") (assoc "text" fields).

(** ** Concrete inputs *)

Definition demo_keywords : dict :=
  [("account suspended", "Security/Account"); ("urgent", "Urgency")].

Definition three_keys : World :=
  {| key_manager := {| keys := ["gsk_a"; "gsk_b"; "gsk_c"]; current_index := 1 |};
     trace := [] |}.

(** A backend that rejects every credential for its rate limit. *)
Definition rate_limiting : Backend :=
  fun _ _ _ _ => Failed "Error code: 429 - Rate limit reached".

(** A backend that cannot be reached. *)
Definition unreachable : Backend :=
  fun _ _ _ _ => Failed "Connection error.".

(** A reply that is a JSON object but no classification, and a backend
    that sends it. *)
Definition off_script : json :=
  JObj [("label", JStr "malicious"); ("reason", JStr "looks bad");
        ("confidence", JNum 7)].

Definition careless : Backend := fun _ _ _ _ => Completed off_script.

(** A backend that rate-limits the first attempt and answers the second. *)
Definition second_try : Backend := fun attempt _ _ _ =>
  match attempt with
  | 0 => Failed "rate_limit_exceeded"
  | _ => Completed (result "safe" "Routine newsletter." 0.9)
  end.

(** A keyword file with one good row, one row without category, and a
    reader that fails after those two rows. *)
Definition torn_file : csv_source :=
  Rows [ {| Keyword := Some " Verify NOW "; Category := Some "Urgency" |};
         {| Keyword := Some "invoice"; Category := None |} ] true.

(** ** Definitions used to state further properties *)

(** The corpus entries the scan loop counts: those whose lowercased phrase
    occurs in the lowercased text (the test of the loop body). *)
Definition matching_entries (lower : string -> string) (keywords : dict)
    (text_lower : string) : dict :=
  List.filter (fun entry => contains (lower (fst entry)) text_lower) keywords.

(** The [label] field of a result. *)
Definition label_of (r : json) : option json :=
  match r with
  | JObj fields => assoc "label" fields
  | _ => None
  end.

(** The credentials of the remote calls of a trace, in order. *)
Definition called_keys (t : list event) : list string :=
  omap (fun e => match e with Called key => Some key | Rotated _ => None end) t.

(** The trace of [k] rate-limited attempts that start with the cursor at
    [i]: a call with the active key, then the rotation to the next one. *)
Fixpoint cycle_trace (ks : list string) (i k : nat) : list event :=
  match k with
  | 0 => []
  | S k' =>
    match ks !! i with
    | Some key =>
      Called key :: Rotated ((i + 1) mod length ks)
        :: cycle_trace ks ((i + 1) mod length ks) k'
    | None => []
    end
  end.

(** The state of the rotator between requests: an empty key list, or a
    cursor inside the list. *)
Definition km_ok (km : KeyManager) : Prop :=
  keys km = [] \/ current_index km < length (keys km).

(** Requests served one after the other on the same process: each has its
    payload and meets its own behaviour of the remote service. *)
Fixpoint serve_all (lower : string -> string) (keywords : dict)
    (requests : list (Backend * json)) (w : World)
  : list (py (json * nat)) * World :=
  match requests with
  | [] => ([], w)
  | (backend, data) :: rest =>
    let '(response, w1) := classify_email lower keywords backend data w in
    let '(responses, w2) := serve_all lower keywords rest w1 in
    (response :: responses, w2)
  end.

(** A backend whose rate-limit error is spelled in capitals. *)
Definition shouting : Backend :=
  fun _ _ _ _ => Failed "RATE_LIMIT_EXCEEDED".

(** A backend that rate-limits the first attempt and is out of reach at
    the second. *)
Definition limited_then_down : Backend := fun attempt _ _ _ =>
  match attempt with
  | 0 => Failed "Error code: 429"
  | _ => Failed "Connection error."
  end.

(** Three rows, the first and the last with the same phrase once stripped
    and lowercased. *)
Definition repeated_rows : csv_source :=
  Rows [ {| Keyword := Some "Verify Now"; Category := Some "Urgency" |};
         {| Keyword := Some "invoice"; Category := Some "Financial" |};
         {| Keyword := Some " verify now "; Category := Some " Social" |} ]
       false.

(** * Properties *)

(** ** Credential rotation *)

Module Rotation.

Lemma rotate_valid (ks : list string) (i : nat) :
  i < length ks ->
  rotate {| keys := ks; current_index := i |} =
  Ret {| keys := ks; current_index := (i + 1) mod length ks |}.
Proof.
  intros Hi. unfold rotate; simpl.
  destruct (Nat.eqb_spec (length ks) 0) as [E|_]; [lia | reflexivity].
Qed.

(** After [n] rotations the cursor is [n] places further, modulo the
    number of keys; the key list is untouched. *)
Lemma rotate_n_valid (n : nat) : forall (ks : list string) (i : nat),
  i < length ks ->
  rotate_n n {| keys := ks; current_index := i |} =
  Ret {| keys := ks; current_index := (i + n) mod length ks |}.
Proof.
  induction n as [|n IH]; intros ks i Hi.
  - simpl. rewrite Nat.add_0_r, Nat.mod_small by exact Hi. reflexivity.
  - simpl. rewrite rotate_valid by exact Hi. simpl.
    assert (Hlt : (i + 1) mod length ks < length ks)
      by (apply Nat.mod_upper_bound; lia).
    change (rotate_n n {| keys := ks;
                          current_index := (i + 1) mod length ks |} =
            Ret {| keys := ks; current_index := (i + S n) mod length ks |}).
    rewrite (IH ks _ Hlt). do 2 f_equal.
    rewrite Nat.Div0.add_mod_idemp_l. f_equal. lia.
Qed.

(** C7. For every non-empty credential list of length L and every valid
    starting index, L consecutive [rotate] calls bring the active index
    back to its starting value, and after any number [k <= L] of them the
    index is still in [0, L) and the key list is the same. *)
Theorem rotate_wraps_around (ks : list string) (i : nat) :
  ks <> [] ->
  i < length ks ->
  rotate_n (length ks) {| keys := ks; current_index := i |} =
    Ret {| keys := ks; current_index := i |} /\
  forall k, k <= length ks ->
    exists j, rotate_n k {| keys := ks; current_index := i |} =
                Ret {| keys := ks; current_index := j |} /\
              j < length ks.
Proof.
  intros _ Hi. split.
  - rewrite rotate_n_valid by exact Hi. do 2 f_equal.
    rewrite <- (Nat.mul_1_l (length ks)) at 1.
    rewrite Nat.Div0.mod_add. apply Nat.mod_small, Hi.
  - intros k _. exists ((i + k) mod length ks). split.
    + apply rotate_n_valid, Hi.
    + apply Nat.mod_upper_bound. lia.
Qed.

Lemma rotate_wraps_around_witness :
  rotate_n 3 {| keys := ["k1"; "k2"; "k3"]; current_index := 2 |} =
    Ret {| keys := ["k1"; "k2"; "k3"]; current_index := 2 |} /\
  forall k, k <= 3 ->
    exists j, rotate_n k {| keys := ["k1"; "k2"; "k3"]; current_index := 2 |} =
                Ret {| keys := ["k1"; "k2"; "k3"]; current_index := j |} /\
              j < 3.
Proof.
  apply (rotate_wraps_around ["k1"; "k2"; "k3"] 2); [discriminate | simpl; lia].
Defined.

End Rotation.

(** ** Local scoring engine *)

Lemma weight_unknown (c : string) :
  known_category c = false -> weight c = 1.
Proof.
  unfold known_category, weight, weights. simpl.
  repeat (destruct (String.eqb c _); simpl; [discriminate|]).
  reflexivity.
Qed.

Lemma contains_in_empty (w : string) : w <> "" -> contains w "" = false.
Proof. destruct w; [congruence | reflexivity]. Qed.

Lemma decide_label_well_formed (total : nat) (found : gset string) :
  well_formed_result (decide_label total found) = true.
Proof.
  unfold decide_label.
  destruct (5 <=? total)%nat; [reflexivity|].
  destruct (2 <=? total)%nat; reflexivity.
Qed.

Section Scan.

Variable lower : string -> string.

(** The loop of [local_keyword_scan] adds to the running score the weights
    of the entries whose phrase matches. *)
Lemma scan_loop_total (text_lower : string) (keywords : dict) :
  forall acc : nat * gset string,
  Forall (fun entry => lower (fst entry) = fst entry) keywords ->
  fst (fold_left (scan_step lower text_lower) keywords acc) =
  fst acc + spec_total keywords text_lower.
Proof.
  induction keywords as [|[word category] rest IH]; intros acc Hlow.
  - unfold spec_total. simpl. lia.
  - inversion Hlow as [|? ? Hw Hrest]; subst. simpl in Hw.
    simpl fold_left. rewrite IH by exact Hrest.
    unfold scan_step, spec_total, spec_matches. simpl. rewrite Hw.
    destruct (contains word text_lower); simpl; lia.
Qed.

(** The scan of a string always returns, and what it returns is the
    decision on the loop's outcome. *)
Lemma local_keyword_scan_str (keywords : dict) (text : string) :
  local_keyword_scan lower keywords (JStr text) =
  Ret (decide_label (fst (scan_loop lower keywords (lower text)))
                    (snd (scan_loop lower keywords (lower text)))).
Proof.
  unfold local_keyword_scan. simpl.
  destruct (scan_loop lower keywords (lower text)); reflexivity.
Qed.

Lemma local_keyword_scan_well_formed (keywords : dict) (text : string) :
  exists r, local_keyword_scan lower keywords (JStr text) = Ret r /\
            well_formed_result r = true.
Proof.
  rewrite local_keyword_scan_str. eexists; split; [reflexivity|].
  apply decide_label_well_formed.
Qed.

(** C3. For every input text, the local scan accumulates, over each corpus
    phrase that is a substring of the lowercased text, the weight of the
    phrase's category per the fixed table (unknown categories weigh 1), and
    returns phishing/0.8 when the total is at least 5, suspicious/0.5 when
    it is at least 2 and below 5, safe/0.4 when it is below 2. The corpus
    has lowercase phrases, as the data model says (and as [load_keywords]
    builds it). *)
Theorem local_scan_weights_and_thresholds (keywords : dict) (text : string) :
  Forall (fun entry => lower (fst entry) = fst entry) keywords ->
  (weight "Urgency" = 5 /\ weight "Financial" = 4 /\ weight "Crypto" = 5 /\
   weight "Government" = 5 /\ weight "Security/Account" = 3 /\
   weight "IT/Admin" = 3 /\ weight "Workplace" = 2 /\ weight "Legal" = 4 /\
   weight "E-commerce" = 2 /\ weight "Generic/Suspicious" = 2 /\
   weight "Social" = 1 /\
   forall c, known_category c = false -> weight c = 1) /\
  fst (scan_loop lower keywords (lower text)) =
    spec_total keywords (lower text) /\
  exists label reason confidence,
    local_keyword_scan lower keywords (JStr text) =
      Ret (result label reason confidence) /\
    (5 <= spec_total keywords (lower text) ->
       label = "phishing" /\ confidence = 0.8%Q) /\
    (2 <= spec_total keywords (lower text) < 5 ->
       label = "suspicious" /\ confidence = 0.5%Q) /\
    (spec_total keywords (lower text) < 2 ->
       label = "safe" /\ confidence = 0.4%Q).
Proof.
  intros Hlow.
  assert (Htotal : fst (scan_loop lower keywords (lower text)) =
                   spec_total keywords (lower text)).
  { unfold scan_loop. rewrite scan_loop_total by exact Hlow. reflexivity. }
  split; [|split; [exact Htotal|]].
  - repeat (split; [reflexivity|]). exact weight_unknown.
  - rewrite local_keyword_scan_str, Htotal. unfold decide_label.
    destruct (Nat.leb_spec 5 (spec_total keywords (lower text))) as [H5|H5].
    + do 3 eexists. split; [reflexivity|].
      repeat split; intros; try reflexivity; lia.
    + destruct (Nat.leb_spec 2 (spec_total keywords (lower text))) as [H2|H2].
      * do 3 eexists. split; [reflexivity|].
        repeat split; intros; try reflexivity; lia.
      * do 3 eexists. split; [reflexivity|].
        repeat split; intros; try reflexivity; lia.
Qed.

(** [str.lower] neither creates nor empties a string. *)
Hypothesis lower_empty : forall s, lower s = "" <-> s = "".

Lemma scan_loop_empty_text (keywords : dict) :
  Forall (fun entry => fst entry <> "") keywords ->
  forall acc, fold_left (scan_step lower "") keywords acc = acc.
Proof.
  induction 1 as [|[word category] rest Hw _ IH]; intros acc; [reflexivity|].
  simpl in Hw. cbn [fold_left].
  assert (Hstep : scan_step lower "" acc (word, category) = acc).
  { unfold scan_step. rewrite contains_in_empty; [reflexivity|].
    intros E. apply Hw, (proj1 (lower_empty word)), E. }
  rewrite Hstep. apply IH.
Qed.

(** C8. The local scan of the empty string yields label safe with
    confidence 0.4, for every corpus whose phrases are non-empty strings. *)
Theorem local_scan_empty_text (keywords : dict) :
  Forall (fun entry => fst entry <> "") keywords ->
  local_keyword_scan lower keywords (JStr "") =
  Ret (result "safe"
         "No high-risk phishing signatures detected in the text." 0.4%Q).
Proof.
  intros Hne. rewrite local_keyword_scan_str.
  assert (E : lower "" = "") by (apply lower_empty; reflexivity).
  rewrite E. unfold scan_loop. rewrite scan_loop_empty_text by exact Hne.
  reflexivity.
Qed.

End Scan.

(** ** Keyword loader *)

Lemma dict_set_Forall (P : string * string -> Prop) (k v : string) (d : dict) :
  (forall v', P (k, v')) -> Forall P d -> Forall P (dict_set k v d).
Proof.
  intros Hk. induction 1 as [|[k' v'] rest Hx Hrest IH]; simpl.
  - repeat constructor. apply Hk.
  - destruct (String.eqb_spec k k') as [->|_]; constructor; auto.
Qed.

Section Loader.

Variable lower : string -> string.
Variable strip : string -> string.

Lemma load_row_unusable (keywords : dict) (r : row) :
  usable_row r = false -> load_row lower strip keywords r = keywords.
Proof.
  unfold usable_row, load_row.
  destruct (Keyword r), (Category r); try reflexivity.
  intros ->. reflexivity.
Qed.

Lemma load_rows_unusable (rs : list row) : forall keywords : dict,
  Forall (fun r => usable_row r = false) rs ->
  fold_left (load_row lower strip) rs keywords = keywords.
Proof.
  induction rs as [|r rs IH]; intros keywords Hrs; [reflexivity|].
  inversion Hrs; subst. cbn [fold_left].
  rewrite load_row_unusable by assumption. apply IH. assumption.
Qed.

(** Unusable rows are skipped: the dict is the one the usable rows build. *)
Lemma load_rows_filter (rs : list row) : forall keywords : dict,
  fold_left (load_row lower strip) rs keywords =
  fold_left (load_row lower strip) (List.filter usable_row rs) keywords.
Proof.
  induction rs as [|r rs IH]; intros keywords; [reflexivity|].
  cbn [fold_left List.filter]. destruct (usable_row r) eqn:E.
  - cbn [fold_left]. apply IH.
  - rewrite load_row_unusable by exact E. apply IH.
Qed.

Lemma load_keywords_rows (src : csv_source) :
  load_keywords lower strip src =
  Ret (fold_left (load_row lower strip) (rows_read src) []).
Proof. destruct src; reflexivity. Qed.

(** The loader stores lowercase phrases, when lowering is idempotent. *)
Lemma load_keywords_lowercase (src : csv_source) (keywords : dict) :
  (forall s, lower (lower s) = lower s) ->
  load_keywords lower strip src = Ret keywords ->
  Forall (fun entry => lower (fst entry) = fst entry) keywords.
Proof.
  intros Hidem. rewrite load_keywords_rows. intros [= <-].
  generalize (@nil (string * string)) (Forall_nil_2 (fun entry : string * string =>
                                            lower (fst entry) = fst entry)).
  induction (rows_read src) as [|r rs IH]; intros d Hd; [exact Hd|].
  cbn [fold_left]. apply IH. unfold load_row.
  destruct (Keyword r), (Category r); try exact Hd.
  match goal with |- context [if ?b then _ else _] => destruct b end;
    [|exact Hd].
  apply dict_set_Forall; [intros; apply Hidem | exact Hd].
Qed.

(** C9, as the code has it. The loader never raises. When the source cannot
    be opened, or when no delivered row has both a non-empty keyword and a
    non-empty category, the corpus is empty. In general the corpus is the
    one built from the usable rows delivered before the read ended or
    failed: unusable rows are skipped and a failure keeps what was loaded. *)
Theorem load_keywords_degrades (src : csv_source) :
  (exists keywords, load_keywords lower strip src = Ret keywords) /\
  (src = Unreadable -> load_keywords lower strip src = Ret []) /\
  (Forall (fun r => usable_row r = false) (rows_read src) ->
   load_keywords lower strip src = Ret []) /\
  load_keywords lower strip src =
    Ret (fold_left (load_row lower strip)
           (List.filter usable_row (rows_read src)) []).
Proof.
  rewrite load_keywords_rows. repeat split.
  - eexists; reflexivity.
  - intros ->. reflexivity.
  - intros Hrs. f_equal. apply load_rows_unusable, Hrs.
  - f_equal. apply load_rows_filter.
Qed.

End Loader.

(** ** The attempt loop and the endpoint *)

Lemma truthy_object (fields : list (string * json)) :
  fields <> [] -> truthy (JObj fields) = true.
Proof. destruct fields; [congruence | reflexivity]. Qed.

Lemma calls_app (t1 t2 : list event) : calls (t1 ++ t2) = calls t1 + calls t2.
Proof. unfold calls. rewrite List.filter_app, length_app. reflexivity. Qed.

Lemma rotations_app (t1 t2 : list event) :
  rotations (t1 ++ t2) = rotations t1 + rotations t2.
Proof. unfold rotations. rewrite List.filter_app, length_app. reflexivity. Qed.

Section Classify.

Variable lower : string -> string.
Variable keywords : dict.
Variable backend : Backend.

Lemma try_body_valid (sender text : json) (a : nat) (w : World) (key : string) :
  keys (key_manager w) !! current_index (key_manager w) = Some key ->
  try_body backend sender text a w =
  (backend a key sender text,
   {| key_manager := key_manager w; trace := trace w ++ [Called key] |}).
Proof. intros Hk. unfold try_body, get_client. rewrite Hk. reflexivity. Qed.

(** The handler never lets an exception escape while the key list is
    non-empty, and a returned body is one the backend produced. *)
Lemma attempt_loop_shape (sender text : json) (n : nat) :
  forall (a : nat) (w : World),
  n = 0 \/ keys (key_manager w) <> [] ->
  match fst (attempt_loop lower backend sender text n a w) with
  | Answered body => exists a' key, backend a' key sender text = Completed body
  | NoResult => True
  | Crashed _ => False
  end.
Proof.
  induction n as [|n IH]; intros a w Hk; [exact I|].
  destruct Hk as [Hk|Hk]; [discriminate|].
  cbn [attempt_loop].
  destruct (try_body backend sender text a w) as [o w1] eqn:Etry.
  assert (Hkm : key_manager w1 = key_manager w).
  { unfold try_body in Etry. destruct (get_client (key_manager w));
      inversion Etry; reflexivity. }
  destruct o as [body|msg].
  - unfold try_body in Etry. destruct (get_client (key_manager w)) as [key|];
      [|discriminate]. inversion Etry. simpl. eauto.
  - destruct (rate_limited lower msg); [|exact I].
    unfold rotate. rewrite Hkm.
    destruct (Nat.eqb_spec (length (keys (key_manager w))) 0) as [E|_].
    + destruct (keys (key_manager w)); [congruence | discriminate].
    + apply IH. right. exact Hk.
Qed.

(** The endpoint on a non-empty dict payload. *)
Lemma classify_email_object (fields : list (string * json)) (w : World) :
  fields <> [] ->
  classify_email lower keywords backend (JObj fields) w =
  match attempt_loop lower backend (sender_of fields) (text_of fields)
          (length (keys (key_manager w))) 0 w with
  | (Answered body, w') => (Ret (body, 200), w')
  | (Crashed e, w') => (Raise e, w')
  | (NoResult, w') =>
    (fallback_result ← local_keyword_scan lower keywords (text_of fields);
     Ret (fallback_result, 200), w')
  end.
Proof.
  intros Hne. unfold classify_email. rewrite truthy_object by exact Hne.
  reflexivity.
Qed.

(** C5, as the code has it. The handler looks for the two tokens in the
    lowercased message. If the first attempt fails with an error whose
    lowercased message contains neither 429 nor rate_limit_exceeded, the
    request makes exactly one backend call and no rotation, the rotator is
    unchanged, and the response is the local fallback. *)
Theorem other_error_stops_at_once (fields : list (string * json)) (w : World)
    (key msg : string) :
  fields <> [] ->
  keys (key_manager w) !! current_index (key_manager w) = Some key ->
  backend 0 key (sender_of fields) (text_of fields) = Failed msg ->
  contains "429" (lower msg) = false ->
  contains "rate_limit_exceeded" (lower msg) = false ->
  exists t,
    classify_email lower keywords backend (JObj fields) w =
      (fallback_result ← local_keyword_scan lower keywords (text_of fields);
       Ret (fallback_result, 200),
       {| key_manager := key_manager w; trace := trace w ++ t |}) /\
    t = [Called key] /\ calls t = 1 /\ rotations t = 0.
Proof.
  intros Hne Hkey Hmsg H429 Hrle. rewrite classify_email_object by exact Hne.
  exists [Called key]. split; [|repeat split].
  pose proof (lookup_lt_Some _ _ _ Hkey) as Hlt.
  destruct (length (keys (key_manager w))) as [|n]; [lia|].
  cbn [attempt_loop]. rewrite (try_body_valid _ _ _ _ key) by exact Hkey.
  rewrite Hmsg. unfold rate_limited. rewrite H429, Hrle. reflexivity.
Qed.

End Classify.

(** C10. When the AI path produces no result (every attempt fails), the
    response depends only on the text field: two payloads that carry a
    sender and have the same text field receive the same response,
    whatever the senders and whatever the state of the rotator. *)
Theorem fallback_ignores_sender (lower : string -> string) (keywords : dict)
    (backend : Backend) (fields1 fields2 : list (string * json))
    (sender1 sender2 : json) (w1 w2 : World) :
  assoc "sender_email" fields1 = Some sender1 ->
  assoc "sender_email" fields2 = Some sender2 ->
  assoc "text" fields1 = assoc "text" fields2 ->
  (forall a key, exists msg,
      backend a key sender1 (text_of fields1) = Failed msg) ->
  (forall a key, exists msg,
      backend a key sender2 (text_of fields2) = Failed msg) ->
  fst (classify_email lower keywords backend (JObj fields1) w1) =
  fst (classify_email lower keywords backend (JObj fields2) w2).
Proof.
  intros Hs1 Hs2 Htext Hf1 Hf2.
  assert (Hfall : forall fields sender w,
             assoc "sender_email" fields = Some sender ->
             (forall a key, exists msg,
                 backend a key sender (text_of fields) = Failed msg) ->
             fst (classify_email lower keywords backend (JObj fields) w) =
             (fallback_result ←
                local_keyword_scan lower keywords (text_of fields);
              Ret (fallback_result, 200))).
  { intros fields sender w Hs Hf.
    assert (Hne : fields <> []) by (intros ->; discriminate).
    rewrite classify_email_object by exact Hne.
    assert (Esender : sender_of fields = sender)
      by (unfold sender_of; rewrite Hs; reflexivity).
    rewrite Esender.
    pose proof (attempt_loop_shape lower backend sender (text_of fields)
                  (length (keys (key_manager w))) 0 w) as Hshape.
    destruct (attempt_loop lower backend sender (text_of fields)
                (length (keys (key_manager w))) 0 w) as [[body| |e] w'].
    - exfalso. destruct Hshape as (a & key & Hc).
      + destruct (keys (key_manager w)); [left; reflexivity | right; discriminate].
      + destruct (Hf a key) as [msg Hm]. congruence.
    - reflexivity.
    - exfalso. apply Hshape.
      destruct (keys (key_manager w)); [left; reflexivity | right; discriminate]. }
  rewrite (Hfall fields1 sender1 w1 Hs1 Hf1), (Hfall fields2 sender2 w2 Hs2 Hf2).
  unfold text_of. rewrite Htext. reflexivity.
Qed.

Section Responses.

Variable lower : string -> string.
Variable strip : string -> string.
Variable keywords : dict.
Variable backend : Backend.

Lemma local_keyword_scan_returns (text r : json) :
  local_keyword_scan lower keywords text = Ret r ->
  well_formed_result r = true.
Proof.
  destruct text as [| | |s| |]; try discriminate.
  rewrite local_keyword_scan_str. intros [= <-].
  apply decide_label_well_formed.
Qed.

Lemma keys_nonempty_or_zero (ks : list string) : length ks = 0 \/ ks <> [].
Proof. destruct ks; [left; reflexivity | right; discriminate]. Qed.

(** Every response of the endpoint: the 400 of the guard, the local scan's
    result, or a body the backend produced, passed on as it is. *)
Lemma classify_email_cases (data : json) (w : World) (body : json)
    (status : nat) :
  fst (classify_email lower keywords backend data w) = Ret (body, status) ->
  (truthy data = false /\ status = 400 /\ body = no_data) \/
  (truthy data = true /\ status = 200 /\
   ((exists text, local_keyword_scan lower keywords text = Ret body /\
                  well_formed_result body = true) \/
    exists a key sender text, backend a key sender text = Completed body)).
Proof.
  unfold classify_email. destruct (truthy data) eqn:Etruthy; simpl.
  2:{ intros [= <- <-]. left. repeat split. }
  destruct data as [| | | | |fields]; simpl; try discriminate.
  pose proof (attempt_loop_shape lower backend
                (default (JStr "Unknown") (assoc "sender_email" fields))
                (default (JStr "") (assoc "text" fields))
                (length (keys (key_manager w))) 0 w
                (keys_nonempty_or_zero _)) as Hshape.
  destruct (attempt_loop _ _ _ _ _ _ _) as [[b| |e] w']; simpl in *.
  - intros [= <- <-]. right. repeat split. right.
    destruct Hshape as (a & key & Hc). eauto.
  - destruct (local_keyword_scan _ _ _) as [r|e] eqn:Escan; simpl;
      [|discriminate].
    intros [= <- <-]. right. repeat split. left. eexists. split; [exact Escan|].
    eapply local_keyword_scan_returns, Escan.
  - contradiction.
Qed.

(** C1, as the code has it. A falsy payload (a missing body, but also an
    empty object) gets the 400 response and no other payload does. A
    non-empty object whose text field is absent or a string always gets
    status 200, with either a body the backend produced or the well-formed
    result of the local scan: no failure of the AI path reaches the
    caller. *)
Theorem classify_email_total :
  (forall data w, truthy data = false ->
     classify_email lower keywords backend data w = (Ret (no_data, 400), w)) /\
  (forall data w body, truthy data = true ->
     fst (classify_email lower keywords backend data w) <> Ret (body, 400)) /\
  (forall fields w,
     fields <> [] ->
     assoc "text" fields = None \/
       (exists s, assoc "text" fields = Some (JStr s)) ->
     exists body w',
       classify_email lower keywords backend (JObj fields) w =
         (Ret (body, 200), w') /\
       ((exists a key,
           backend a key (sender_of fields) (text_of fields) = Completed body) \/
        (local_keyword_scan lower keywords (text_of fields) = Ret body /\
         well_formed_result body = true))).
Proof.
  split; [|split].
  - intros data w Hf. unfold classify_email. rewrite Hf. reflexivity.
  - intros data w body Ht E. apply classify_email_cases in E.
    destruct E as [(Hf & _)|(_ & Hs & _)]; [congruence | discriminate].
  - intros fields w Hne Htext. rewrite classify_email_object by exact Hne.
    assert (Hstr : exists s, text_of fields = JStr s).
    { unfold text_of. destruct Htext as [->|[s ->]]; simpl; eauto. }
    destruct Hstr as [s Hs].
    pose proof (attempt_loop_shape lower backend (sender_of fields)
                  (text_of fields) (length (keys (key_manager w))) 0 w
                  (keys_nonempty_or_zero _)) as Hshape.
    destruct (attempt_loop _ _ _ _ _ _ _) as [[b| |e] w']; simpl in Hshape.
    + exists b, w'. split; [reflexivity|]. left. exact Hshape.
    + rewrite Hs.
      destruct (local_keyword_scan_well_formed lower keywords s) as (r & Er & Hr).
      exists r, w'. rewrite Er. split; [reflexivity|]. right. split; [reflexivity | exact Hr].
    + contradiction.
Qed.

(** C6, as the code has it. A result produced by the local fallback has its
    label among phishing, suspicious and safe and its confidence in [0, 1].
    A result produced by the AI path is the JSON value of the backend's
    reply, passed on unchanged and unchecked; every body sent with status
    200 is one or the other. *)
Theorem result_shape_by_path :
  (forall text r, local_keyword_scan lower keywords text = Ret r ->
     well_formed_result r = true) /\
  (forall fields w key body,
     fields <> [] ->
     keys (key_manager w) !! current_index (key_manager w) = Some key ->
     backend 0 key (sender_of fields) (text_of fields) = Completed body ->
     classify_email lower keywords backend (JObj fields) w =
       (Ret (body, 200),
        {| key_manager := key_manager w;
           trace := trace w ++ [Called key] |})) /\
  (forall data w body,
     fst (classify_email lower keywords backend data w) = Ret (body, 200) ->
     well_formed_result body = true \/
     exists a key sender text, backend a key sender text = Completed body).
Proof.
  split; [|split].
  - exact local_keyword_scan_returns.
  - intros fields w key body Hne Hkey Hc.
    rewrite classify_email_object by exact Hne.
    pose proof (lookup_lt_Some _ _ _ Hkey) as Hlt.
    destruct (length (keys (key_manager w))) as [|n]; [lia|].
    cbn [attempt_loop]. rewrite (try_body_valid _ _ _ _ _ key) by exact Hkey.
    rewrite Hc. reflexivity.
  - intros data w body E. apply classify_email_cases in E.
    destruct E as [(_ & Hs & _)|(_ & _ & [(text & _ & Hwf)|Hb])];
      [discriminate | left; exact Hwf | right; exact Hb].
Qed.

(** C2, as the code has it. Nothing checks the credential list: with no
    credential configured, initialisation succeeds with an empty key list,
    and every request whose payload is a non-empty object is handled by the
    local scan alone, without any backend call or rotation: the response
    is what the local scan of the text field gives, and when the text field
    is absent or a string it is the scan's well-formed result with status
    200. *)
Theorem empty_credentials_served_locally (environ : list (string * string))
    (src : csv_source) :
  load_api_keys environ = [] ->
  exists app,
    startup lower strip environ src = Ret app /\
    keys (app_key_manager app) = [] /\
    (forall fields, fields <> [] ->
       serve lower app backend (JObj fields) =
         (fallback_result ←
            local_keyword_scan lower (PHISHING_KEYWORDS app) (text_of fields);
          Ret (fallback_result, 200),
          {| key_manager := app_key_manager app; trace := [] |})) /\
    (forall fields, fields <> [] ->
       assoc "text" fields = None \/
         (exists s, assoc "text" fields = Some (JStr s)) ->
       exists r,
         serve lower app backend (JObj fields) =
           (Ret (r, 200),
            {| key_manager := app_key_manager app; trace := [] |}) /\
         local_keyword_scan lower (PHISHING_KEYWORDS app) (text_of fields) =
           Ret r /\
         well_formed_result r = true).
Proof.
  intros Hkeys. unfold startup. rewrite Hkeys, load_keywords_rows. simpl.
  eexists. split; [reflexivity|]. split; [reflexivity|].
  assert (Hserve : forall fields, fields <> [] ->
    serve lower
      {| app_key_manager := KeyManager_init [];
         PHISHING_KEYWORDS :=
           fold_left (load_row lower strip) (rows_read src) [] |}
      backend (JObj fields) =
    (fallback_result ←
       local_keyword_scan lower
         (fold_left (load_row lower strip) (rows_read src) []) (text_of fields);
     Ret (fallback_result, 200),
     {| key_manager := KeyManager_init []; trace := [] |})).
  { intros fields Hne. unfold serve.
    rewrite classify_email_object by exact Hne. reflexivity. }
  split; [exact Hserve|].
  intros fields Hne Htext. rewrite (Hserve fields Hne).
  assert (Hstr : exists s, text_of fields = JStr s).
  { unfold text_of. destruct Htext as [->|[s ->]]; simpl; eauto. }
  destruct Hstr as [s ->].
  destruct (local_keyword_scan_well_formed lower
              (fold_left (load_row lower strip) (rows_read src) []) s)
    as (r & Er & Hr).
  exists r. cbn [PHISHING_KEYWORDS app_key_manager].
  split; [rewrite Er; reflexivity | split; [exact Er | exact Hr]].
Qed.

End Responses.

(** ** The program on concrete inputs *)

Module Examples.

Lemma ascii_lower_empty (s : string) : ascii_lower s = "" <-> s = "".
Proof. destruct s; simpl; split; congruence. Qed.

Example scan_account_suspended :
  local_keyword_scan ascii_lower demo_keywords
    (JStr "Your ACCOUNT suspended now") =
  Ret (result "suspicious"
         "Caution: Found Security/Account related phrases." 0.5%Q).
Proof. reflexivity. Qed.

Example scan_two_themes :
  local_keyword_scan ascii_lower demo_keywords
    (JStr "URGENT: account suspended") =
  Ret (result "phishing"
         "High risk detected. Matches themes: Security/Account, Urgency."
         0.8%Q).
Proof. vm_compute. reflexivity. Qed.

Example scan_not_a_string :
  local_keyword_scan ascii_lower demo_keywords (JNum 5) = Raise AttributeError.
Proof. reflexivity. Qed.

(** One rate-limit rotation, then the AI result: returned as it is, no
    further attempt, and the cursor stays on the key that worked. *)
Example classify_second_attempt :
  classify_email ascii_lower demo_keywords second_try
    (JObj [("text", JStr "urgent")]) three_keys =
  (Ret (result "safe" "Routine newsletter." 0.9%Q, 200),
   {| key_manager := {| keys := ["gsk_a"; "gsk_b"; "gsk_c"];
                        current_index := 2 |};
      trace := [Called "gsk_b"; Rotated 2; Called "gsk_c"] |}).
Proof. reflexivity. Qed.

Example rotate_no_keys :
  rotate (KeyManager_init []) = Raise ZeroDivisionError.
Proof. reflexivity. Qed.

(** *** C1 *)

(** An empty object is a valid JSON payload, and it is refused with status
    400; a non-empty array is a valid payload too, and the view raises on
    it; a text that is not a string makes the fallback raise; and a reply
    of the backend that is no classification is sent with status 200. *)
Lemma classify_email_refuses_empty_object :
  classify_email ascii_lower demo_keywords unreachable (JObj []) three_keys =
    (Ret (no_data, 400), three_keys) /\
  fst (classify_email ascii_lower demo_keywords unreachable
         (JArr [JStr "hello"]) three_keys) = Raise AttributeError /\
  fst (classify_email ascii_lower demo_keywords unreachable
         (JObj [("text", JNum 5)]) three_keys) = Raise AttributeError /\
  fst (classify_email ascii_lower demo_keywords careless
         (JObj [("text", JStr "hello")]) three_keys) = Ret (off_script, 200) /\
  well_formed_result off_script = false.
Proof. repeat split. Qed.

Lemma classify_email_total_witness :
  exists body w',
    classify_email ascii_lower demo_keywords unreachable
      (JObj [("sender_email", JStr "it@examp1e.com"); ("text", JStr "urgent")])
      three_keys = (Ret (body, 200), w') /\
    ((exists a key,
        unreachable a key (JStr "it@examp1e.com") (JStr "urgent") =
        Completed body) \/
     (local_keyword_scan ascii_lower demo_keywords (JStr "urgent") = Ret body /\
      well_formed_result body = true)).
Proof.
  apply (proj2 (proj2 (classify_email_total ascii_lower demo_keywords
                         unreachable))).
  - discriminate.
  - right. eexists. reflexivity.
Defined.

(** *** C2 *)

(** An environment without any credential: initialisation succeeds, the key
    list is empty, and a request is served with status 200. *)
Lemma no_credentials_still_serves :
  exists app,
    startup ascii_lower ascii_strip [("PATH", "/usr/bin"); ("GROQ_API_KEY_1", "")]
      torn_file = Ret app /\
    keys (app_key_manager app) = [] /\
    serve ascii_lower app careless (JObj [("text", JStr "verify now")]) =
      (Ret (result "phishing"
              "High risk detected. Matches themes: Urgency." 0.8%Q, 200),
       {| key_manager := KeyManager_init []; trace := [] |}).
Proof. eexists. split; [reflexivity|]. split; vm_compute; reflexivity. Qed.

Lemma empty_credentials_served_locally_witness :
  exists app,
    startup ascii_lower ascii_strip [("PATH", "/usr/bin")] torn_file = Ret app /\
    keys (app_key_manager app) = [] /\
    (forall fields, fields <> [] ->
       serve ascii_lower app careless (JObj fields) =
         (fallback_result ←
            local_keyword_scan ascii_lower (PHISHING_KEYWORDS app)
              (text_of fields);
          Ret (fallback_result, 200),
          {| key_manager := app_key_manager app; trace := [] |})) /\
    (forall fields, fields <> [] ->
       assoc "text" fields = None \/
         (exists s, assoc "text" fields = Some (JStr s)) ->
       exists r,
         serve ascii_lower app careless (JObj fields) =
           (Ret (r, 200),
            {| key_manager := app_key_manager app; trace := [] |}) /\
         local_keyword_scan ascii_lower (PHISHING_KEYWORDS app)
           (text_of fields) = Ret r /\
         well_formed_result r = true).
Proof.
  apply (empty_credentials_served_locally ascii_lower ascii_strip careless
           [("PATH", "/usr/bin")] torn_file).
  reflexivity.
Defined.

(** *** C3 *)

Lemma local_scan_weights_and_thresholds_witness :
  Forall (fun entry => ascii_lower (fst entry) = fst entry) demo_keywords /\
  spec_total demo_keywords (ascii_lower "Your ACCOUNT suspended now") = 3 /\
  exists label reason confidence,
    local_keyword_scan ascii_lower demo_keywords
      (JStr "Your ACCOUNT suspended now") =
      Ret (result label reason confidence) /\
    label = "suspicious" /\ confidence = 0.5%Q.
Proof.
  assert (Hlow : Forall (fun entry => ascii_lower (fst entry) = fst entry)
                   demo_keywords) by (repeat constructor).
  split; [exact Hlow|]. split; [reflexivity|].
  destruct (local_scan_weights_and_thresholds ascii_lower demo_keywords
              "Your ACCOUNT suspended now" Hlow)
    as (_ & _ & label & reason & confidence & Escan & _ & Hmid & _).
  exists label, reason, confidence. split; [exact Escan|].
  apply Hmid. vm_compute. lia.
Defined.

(** *** C5 *)

(** The message of [shouting] contains neither token as it is written,
    and the handler still takes it for a rate limit, because it lowercases
    the message first: the request goes through all three keys. *)
Lemma uppercase_rate_limit_rotates :
  contains "429" "RATE_LIMIT_EXCEEDED" = false /\
  contains "rate_limit_exceeded" "RATE_LIMIT_EXCEEDED" = false /\
  shouting 0 "gsk_b" (JStr "Unknown") (JStr "urgent") =
    Failed "RATE_LIMIT_EXCEEDED" /\
  classify_email ascii_lower demo_keywords shouting
    (JObj [("text", JStr "urgent")]) three_keys =
    (Ret (result "phishing"
            "High risk detected. Matches themes: Urgency." 0.8%Q, 200),
     {| key_manager := key_manager three_keys;
        trace := [Called "gsk_b"; Rotated 2; Called "gsk_c"; Rotated 0;
                  Called "gsk_a"; Rotated 1] |}) /\
  calls [Called "gsk_b"; Rotated 2; Called "gsk_c"; Rotated 0;
         Called "gsk_a"; Rotated 1] = 3 /\
  rotations [Called "gsk_b"; Rotated 2; Called "gsk_c"; Rotated 0;
             Called "gsk_a"; Rotated 1] = 3.
Proof. repeat split. Qed.

Lemma other_error_stops_at_once_witness :
  exists t,
    classify_email ascii_lower demo_keywords unreachable
      (JObj [("text", JStr "urgent")]) three_keys =
      (Ret (result "phishing"
              "High risk detected. Matches themes: Urgency." 0.8%Q, 200),
       {| key_manager := key_manager three_keys; trace := t |}) /\
    t = [Called "gsk_b"] /\ calls t = 1 /\ rotations t = 0.
Proof.
  apply (other_error_stops_at_once ascii_lower demo_keywords unreachable
           [("text", JStr "urgent")] three_keys "gsk_b" "Connection error.");
    first [discriminate | reflexivity].
Defined.

(** *** C6 *)

(** The reply of [careless] has a label outside the three risk labels and a
    confidence above 1; the endpoint sends it as it is. *)
Lemma ai_result_is_not_checked :
  classify_email ascii_lower demo_keywords careless
    (JObj [("sender_email", JStr "it@examp1e.com"); ("text", JStr "hello")])
    three_keys =
    (Ret (off_script, 200),
     {| key_manager := key_manager three_keys; trace := [Called "gsk_b"] |}) /\
  assoc "label" [("label", JStr "malicious"); ("reason", JStr "looks bad");
                 ("confidence", JNum 7)] = Some (JStr "malicious") /\
  is_label "malicious" = false /\
  Qle_bool 7 1 = false /\
  well_formed_result off_script = false.
Proof. repeat split. Qed.

Lemma result_shape_by_path_witness :
  classify_email ascii_lower demo_keywords careless
    (JObj [("text", JStr "hello")]) three_keys =
    (Ret (off_script, 200),
     {| key_manager := key_manager three_keys;
        trace := trace three_keys ++ [Called "gsk_b"] |}).
Proof.
  apply (proj1 (proj2 (result_shape_by_path ascii_lower demo_keywords careless))
           [("text", JStr "hello")] three_keys "gsk_b" off_script);
    first [discriminate | reflexivity].
Defined.

(** *** C8 *)

Lemma local_scan_empty_text_witness :
  Forall (fun entry : string * string => fst entry <> "") demo_keywords /\
  local_keyword_scan ascii_lower demo_keywords (JStr "") =
  Ret (result "safe"
         "No high-risk phishing signatures detected in the text." 0.4%Q).
Proof.
  assert (Hne : Forall (fun entry : string * string => fst entry <> "")
                  demo_keywords) by (repeat constructor; discriminate).
  split; [exact Hne|].
  apply (local_scan_empty_text ascii_lower ascii_lower_empty demo_keywords Hne).
Defined.

(** A corpus with an empty phrase is outside C8: the empty phrase occurs in
    the empty text. *)
Example scan_empty_phrase :
  local_keyword_scan ascii_lower [("", "Urgency")] (JStr "") =
  Ret (result "phishing" "High risk detected. Matches themes: Urgency." 0.8%Q).
Proof. vm_compute. reflexivity. Qed.

(** *** C9 *)

(** The reader fails after two rows, one of them malformed: the loader
    returns, and the corpus keeps the good row. *)
Lemma load_keywords_keeps_partial_corpus :
  load_keywords ascii_lower ascii_strip torn_file =
    Ret [("verify now", "Urgency")] /\
  load_keywords ascii_lower ascii_strip torn_file <> Ret [] /\
  usable_row {| Keyword := Some "invoice"; Category := None |} = false.
Proof. split; [reflexivity|]. split; [discriminate | reflexivity]. Qed.

Lemma load_keywords_degrades_witness :
  Forall (fun r => usable_row r = false)
    (rows_read (Rows [ {| Keyword := Some "invoice"; Category := None |};
                       {| Keyword := Some ""; Category := Some "Legal" |};
                       {| Keyword := None; Category := None |} ] false)) /\
  load_keywords ascii_lower ascii_strip
    (Rows [ {| Keyword := Some "invoice"; Category := None |};
            {| Keyword := Some ""; Category := Some "Legal" |};
            {| Keyword := None; Category := None |} ] false) = Ret [].
Proof.
  assert (Hrows : Forall (fun r => usable_row r = false)
    (rows_read (Rows [ {| Keyword := Some "invoice"; Category := None |};
                       {| Keyword := Some ""; Category := Some "Legal" |};
                       {| Keyword := None; Category := None |} ] false)))
    by (repeat constructor).
  split; [exact Hrows|].
  apply (proj1 (proj2 (proj2 (load_keywords_degrades ascii_lower ascii_strip _)))
           Hrows).
Defined.

(** *** C10 *)

Lemma fallback_ignores_sender_witness :
  fst (classify_email ascii_lower demo_keywords unreachable
         (JObj [("sender_email", JStr "it@examp1e.com"); ("text", JStr "urgent")])
         three_keys) =
  fst (classify_email ascii_lower demo_keywords unreachable
         (JObj [("text", JStr "urgent"); ("sender_email", JStr "boss@corp.example")])
         {| key_manager := KeyManager_init ["gsk_a"]; trace := [] |}).
Proof.
  apply (fallback_ignores_sender ascii_lower demo_keywords unreachable
           [("sender_email", JStr "it@examp1e.com"); ("text", JStr "urgent")]
           [("text", JStr "urgent"); ("sender_email", JStr "boss@corp.example")]
           (JStr "it@examp1e.com") (JStr "boss@corp.example"));
    first [reflexivity | intros a key; eexists; reflexivity].
Defined.

End Examples.

(** * Further properties *)

(** ** Substrings *)

Lemma string_app_cons (x : ascii) (a b : string) :
  String x a ++ b = String x (a ++ b).
Proof. reflexivity. Qed.

Lemma string_app_assoc (a b c : string) : (a ++ b) ++ c = a ++ b ++ c.
Proof.
  induction a as [|x a IH]; [reflexivity|].
  rewrite !string_app_cons. f_equal. exact IH.
Qed.

Lemma prefix_spec (n h : string) :
  String.prefix n h = true <-> exists post, h = n ++ post.
Proof.
  revert h. induction n as [|x n IH]; intros h.
  - split; [intros _; exists h; reflexivity | destruct h; reflexivity].
  - destruct h as [|y h]; simpl; [split; [discriminate | intros [? [=]]]|].
    destruct (ascii_dec x y) as [->|Hne].
    + rewrite IH. split; intros [post E]; exists post;
        rewrite string_app_cons in *; congruence.
    + split; [discriminate|]. intros [post E].
      rewrite string_app_cons in E. congruence.
Qed.

(** [contains needle hay] holds exactly when [hay] can be cut into a part
    before the needle, the needle, and a part after it. *)
Lemma contains_spec (n h : string) :
  contains n h = true <-> exists pre post, h = pre ++ n ++ post.
Proof.
  induction h as [|y h IH]; cbn [contains].
  - rewrite orb_false_r, prefix_spec. split.
    + intros [post E]. exists "", post. exact E.
    + intros (pre & post & E). destruct pre; [exists post; exact E | discriminate].
  - rewrite orb_true_iff, prefix_spec, IH. split.
    + intros [[post E]|(pre & post & E)].
      * exists "", post. exact E.
      * exists (String y pre), post. rewrite string_app_cons. congruence.
    + intros (pre & post & E). destruct pre as [|x pre].
      * left. exists post. exact E.
      * right. exists pre, post. rewrite string_app_cons in E. congruence.
Qed.

Lemma contains_trans (a b c : string) :
  contains a b = true -> contains b c = true -> contains a c = true.
Proof.
  rewrite !contains_spec. intros (p1 & q1 & ->) (p2 & q2 & ->).
  exists (p2 ++ p1), (q1 ++ q2).
  rewrite !string_app_assoc. reflexivity.
Qed.

(** ** The scan loop on any corpus *)

Lemma weight_bounds (c : string) : 1 <= weight c <= 5.
Proof.
  unfold weight, weights. simpl.
  repeat (destruct (String.eqb c _); simpl; [lia|]). lia.
Qed.

Lemma sum_list_map_ge {A} (f : A -> nat) (x : A) (l : list A) :
  In x l -> f x <= sum_list (List.map f l).
Proof.
  induction l as [|y l IH]; simpl; [contradiction|].
  intros [->|Hin]; [lia | specialize (IH Hin); lia].
Qed.

Section ScanLoop.

Variable lower : string -> string.

(** The loop adds the weights of the matching entries to the score and
    their categories to the set. *)
Lemma scan_loop_fold (text_lower : string) (keywords : dict) :
  forall acc : nat * gset string,
  fold_left (scan_step lower text_lower) keywords acc =
  (fst acc + sum_list (List.map (fun entry => weight (snd entry))
                         (matching_entries lower keywords text_lower)),
   snd acc ∪ list_to_set (List.map snd
                            (matching_entries lower keywords text_lower))).
Proof.
  induction keywords as [|[word category] rest IH]; intros [score found].
  - simpl. rewrite Nat.add_0_r, (right_id_L ∅ (∪)). reflexivity.
  - cbn [fold_left]. rewrite IH. unfold scan_step, matching_entries.
    cbn [List.filter fst snd].
    destruct (contains (lower word) text_lower); simpl.
    + f_equal; [lia | rewrite (assoc_L (∪)); reflexivity].
    + reflexivity.
Qed.

Lemma scan_loop_eq (keywords : dict) (text_lower : string) :
  scan_loop lower keywords text_lower =
  (sum_list (List.map (fun entry => weight (snd entry))
               (matching_entries lower keywords text_lower)),
   list_to_set (List.map snd (matching_entries lower keywords text_lower))).
Proof.
  unfold scan_loop. rewrite scan_loop_fold. simpl.
  rewrite (left_id_L ∅ (∪)). reflexivity.
Qed.

(** X8. [found_categories] holds exactly the categories of the entries
    whose lowercased phrase occurs in the lowercased text. *)
Theorem found_categories_are_matched (keywords : dict) (text_lower c : string) :
  c ∈ snd (scan_loop lower keywords text_lower) <->
  exists word, (word, c) ∈ keywords /\
               contains (lower word) text_lower = true.
Proof.
  rewrite scan_loop_eq. cbn [snd]. rewrite elem_of_list_to_set.
  rewrite list_elem_of_In, in_map_iff. unfold matching_entries. split.
  - intros ([word c'] & Ec & Hin). simpl in Ec. subst c'.
    apply filter_In in Hin as [Hin Hm]. exists word.
    split; [apply list_elem_of_In, Hin | exact Hm].
  - intros (word & Hin & Hm). exists (word, c). split; [reflexivity|].
    apply filter_In. split; [apply list_elem_of_In, Hin | exact Hm].
Qed.

(** X9. The order of the corpus does not matter: two corpora with the same
    entries give the same score and the same set of categories. *)
Theorem scan_order_irrelevant (keywords keywords' : dict) (text_lower : string) :
  keywords ≡ₚ keywords' ->
  scan_loop lower keywords text_lower = scan_loop lower keywords' text_lower.
Proof.
  intros Hperm. rewrite !scan_loop_eq.
  assert (Hm : matching_entries lower keywords text_lower ≡ₚ
               matching_entries lower keywords' text_lower).
  { unfold matching_entries.
    induction Hperm as [|x l l' _ IH|x y l|l l' l'' _ IH1 _ IH2]; simpl.
    - reflexivity.
    - destruct (contains _ _); [constructor|]; exact IH.
    - destruct (contains (lower (fst x)) _), (contains (lower (fst y)) _);
        try reflexivity. apply perm_swap.
    - etransitivity; eassumption. }
  f_equal.
  - change (sum_list (List.map ?f ?l)) with (sum_list (f <$> l)).
    rewrite Hm. reflexivity.
  - apply set_eq. intros c. rewrite !elem_of_list_to_set.
    change (List.map snd ?l) with (snd <$> l). rewrite Hm. reflexivity.
Qed.

(** X10. A matching entry counts: the score is at least the weight of its
    category, and the category is reported. One matching entry of a
    category of weight 5 makes the result phishing whatever else matches. *)
Theorem matching_entry_contributes (keywords : dict) (text word c : string) :
  (word, c) ∈ keywords ->
  contains (lower word) (lower text) = true ->
  weight c <= fst (scan_loop lower keywords (lower text)) /\
  c ∈ snd (scan_loop lower keywords (lower text)) /\
  (weight c = 5 ->
   exists r, local_keyword_scan lower keywords (JStr text) = Ret r /\
             label_of r = Some (JStr "phishing")).
Proof.
  intros Hin Hm.
  assert (Hfound : c ∈ snd (scan_loop lower keywords (lower text)))
    by (apply found_categories_are_matched; eauto).
  assert (Hscore : weight c <= fst (scan_loop lower keywords (lower text))).
  { rewrite scan_loop_eq. cbn [fst].
    apply (sum_list_map_ge (fun entry => weight (snd entry)) (word, c)).
    apply filter_In. split; [apply list_elem_of_In, Hin | exact Hm]. }
  split; [exact Hscore|]. split; [exact Hfound|].
  intros H5. rewrite local_keyword_scan_str. eexists. split; [reflexivity|].
  unfold decide_label.
  destruct (Nat.leb_spec 5 (fst (scan_loop lower keywords (lower text))));
    [reflexivity | lia].
Qed.

(** X11. The score lies between the number of matching entries and five
    times that number: a text that matches nothing is safe, and a text
    that matches two entries or more is never safe. *)
Theorem score_bounds (keywords : dict) (text : string) :
  let hits := length (matching_entries lower keywords (lower text)) in
  hits <= fst (scan_loop lower keywords (lower text)) <= 5 * hits /\
  exists r, local_keyword_scan lower keywords (JStr text) = Ret r /\
    (hits = 0 -> label_of r = Some (JStr "safe")) /\
    (2 <= hits -> label_of r <> Some (JStr "safe")) /\
    (5 <= hits -> label_of r = Some (JStr "phishing")).
Proof.
  intros hits.
  assert (Hb : hits <= fst (scan_loop lower keywords (lower text)) <= 5 * hits).
  { rewrite scan_loop_eq. cbn [fst]. subst hits.
    induction (matching_entries lower keywords (lower text)) as [|e l IH];
      simpl; [lia|].
    pose proof (weight_bounds (snd e)). lia. }
  split; [exact Hb|].
  rewrite local_keyword_scan_str. eexists. split; [reflexivity|].
  unfold decide_label.
  destruct (Nat.leb_spec 5 (fst (scan_loop lower keywords (lower text))));
    [|destruct (Nat.leb_spec 2 (fst (scan_loop lower keywords (lower text))))];
    (split; [|split]); intros; first [reflexivity | discriminate | lia].
Qed.

(** X12. More text never lowers the verdict: when the lowercased first text
    occurs in the lowercased second text, every entry that matches the
    first matches the second, so the score and the categories can only
    grow; a phishing verdict stays, and a safe verdict of the longer text
    is a safe verdict of the shorter one. *)
Theorem scan_monotone_in_text (keywords : dict) (text1 text2 : string) :
  contains (lower text1) (lower text2) = true ->
  fst (scan_loop lower keywords (lower text1)) <=
    fst (scan_loop lower keywords (lower text2)) /\
  snd (scan_loop lower keywords (lower text1)) ⊆
    snd (scan_loop lower keywords (lower text2)) /\
  exists r1 r2,
    local_keyword_scan lower keywords (JStr text1) = Ret r1 /\
    local_keyword_scan lower keywords (JStr text2) = Ret r2 /\
    (label_of r1 = Some (JStr "phishing") ->
     label_of r2 = Some (JStr "phishing")) /\
    (label_of r2 = Some (JStr "safe") -> label_of r1 = Some (JStr "safe")).
Proof.
  intros Hsub.
  assert (Hscore : fst (scan_loop lower keywords (lower text1)) <=
                   fst (scan_loop lower keywords (lower text2))).
  { rewrite !scan_loop_eq. cbn [fst]. unfold matching_entries.
    induction keywords as [|[word c] rest IH]; simpl; [lia|].
    destruct (contains (lower word) (lower text1)) eqn:E1.
    - rewrite (contains_trans _ _ _ E1 Hsub). simpl. lia.
    - destruct (contains (lower word) (lower text2)); simpl; lia. }
  assert (Hset : snd (scan_loop lower keywords (lower text1)) ⊆
                 snd (scan_loop lower keywords (lower text2))).
  { intros c. rewrite !found_categories_are_matched.
    intros (word & Hin & Hm). exists word.
    split; [exact Hin | exact (contains_trans _ _ _ Hm Hsub)]. }
  split; [exact Hscore|]. split; [exact Hset|].
  rewrite !local_keyword_scan_str. do 2 eexists.
  split; [reflexivity|]. split; [reflexivity|]. unfold decide_label.
  destruct (Nat.leb_spec 5 (fst (scan_loop lower keywords (lower text1))));
    destruct (Nat.leb_spec 5 (fst (scan_loop lower keywords (lower text2))));
    destruct (Nat.leb_spec 2 (fst (scan_loop lower keywords (lower text1))));
    destruct (Nat.leb_spec 2 (fst (scan_loop lower keywords (lower text2))));
    split; intros; first [reflexivity | discriminate | lia].
Qed.

End ScanLoop.

(** ** The corpus as a dict *)

Lemma assoc_dict_set_eq (k v : string) (d : dict) :
  assoc k (dict_set k v d) = Some v.
Proof.
  induction d as [|[k' v'] rest IH]; simpl.
  - rewrite String.eqb_refl. reflexivity.
  - destruct (String.eqb k k') eqn:E; simpl; rewrite E; [reflexivity | exact IH].
Qed.

Lemma assoc_dict_set_ne (k k' v : string) (d : dict) :
  k <> k' -> assoc k' (dict_set k v d) = assoc k' d.
Proof.
  intros Hne. induction d as [|[k0 v0] rest IH]; simpl.
  - destruct (String.eqb_spec k' k); [congruence | reflexivity].
  - destruct (String.eqb_spec k k0) as [->|_]; simpl.
    + destruct (String.eqb_spec k' k0); [congruence | reflexivity].
    + destruct (String.eqb k' k0); [reflexivity | exact IH].
Qed.

(** Assigning to a key keeps the keys already there, in their places, and
    appends the key when it is new. *)
Lemma dict_set_keys (k v : string) (d : dict) :
  List.map fst (dict_set k v d) =
  if existsb (String.eqb k) (List.map fst d) then List.map fst d
  else (List.map fst d ++ [k])%list.
Proof.
  induction d as [|[k' v'] rest IH]; simpl; [reflexivity|].
  destruct (String.eqb k k'); simpl; [reflexivity|].
  rewrite IH. destruct (existsb _ _); reflexivity.
Qed.

Lemma dict_set_NoDup (k v : string) (d : dict) :
  NoDup (List.map fst d) -> NoDup (List.map fst (dict_set k v d)).
Proof.
  intros Hd. rewrite dict_set_keys.
  destruct (existsb (String.eqb k) (List.map fst d)) eqn:E; [exact Hd|].
  apply NoDup_app. split; [exact Hd|]. split; [|apply NoDup_singleton].
  intros x Hx [<-|[]]%list_elem_of_In.
  assert (Hex : existsb (String.eqb k) (List.map fst d) = true).
  { apply existsb_exists. exists k.
    split; [apply list_elem_of_In, Hx | apply String.eqb_refl]. }
  congruence.
Qed.

Lemma dict_set_key_in (k v k' : string) (d : dict) :
  In k' (List.map fst (dict_set k v d)) <-> k' = k \/ In k' (List.map fst d).
Proof.
  rewrite dict_set_keys.
  destruct (existsb (String.eqb k) (List.map fst d)) eqn:E.
  - split; [auto|]. intros [->|H]; [|exact H].
    apply existsb_exists in E as (x & Hx & Ex).
    apply String.eqb_eq in Ex. subst x. exact Hx.
  - rewrite in_app_iff. simpl. intuition congruence.
Qed.

Section Corpus.

Variable lower : string -> string.
Variable strip : string -> string.

(** The key under which a usable row is stored. *)
Lemma load_row_usable (keywords : dict) (r : row) (kw cat : string) :
  Keyword r = Some kw -> Category r = Some cat ->
  usable_row r = true ->
  load_row lower strip keywords r =
  dict_set (lower (strip kw)) (strip cat) keywords.
Proof.
  unfold usable_row, load_row. intros -> -> ->. reflexivity.
Qed.

Lemma load_row_cases (keywords : dict) (r : row) :
  (usable_row r = false /\ load_row lower strip keywords r = keywords) \/
  (exists kw cat, Keyword r = Some kw /\ Category r = Some cat /\
                  usable_row r = true /\
                  load_row lower strip keywords r =
                  dict_set (lower (strip kw)) (strip cat) keywords).
Proof.
  destruct (usable_row r) eqn:E.
  - right. unfold usable_row in E.
    destruct (Keyword r) as [kw|] eqn:Ek; [|discriminate].
    destruct (Category r) as [cat|] eqn:Ec; [|discriminate].
    exists kw, cat. repeat split.
    apply load_row_usable; try assumption.
    unfold usable_row. rewrite Ek, Ec. exact E.
  - left. split; [reflexivity | apply load_row_unusable, E].
Qed.

(** X13. No phrase occurs twice in the loaded corpus. *)
Theorem load_keywords_unique_phrases (src : csv_source) (keywords : dict) :
  load_keywords lower strip src = Ret keywords ->
  NoDup (List.map fst keywords).
Proof.
  rewrite load_keywords_rows. intros [= <-].
  assert (H0 : NoDup (List.map fst (@nil (string * string))))
    by apply NoDup_nil_2.
  revert H0. generalize (@nil (string * string)).
  induction (rows_read src) as [|r rs IH]; intros d Hd; [exact Hd|].
  cbn [fold_left]. apply IH.
  destruct (load_row_cases d r) as [[_ ->]|(kw & cat & _ & _ & _ & ->)];
    [exact Hd | apply dict_set_NoDup, Hd].
Qed.

(** X14. The phrases of the loaded corpus are exactly the stripped and
    lowercased keywords of the usable rows that were delivered: nothing
    else gets in, and no usable row is lost. *)
Theorem load_keywords_phrases (src : csv_source) (keywords : dict) (k : string) :
  load_keywords lower strip src = Ret keywords ->
  In k (List.map fst keywords) <->
  exists r kw, In r (rows_read src) /\ usable_row r = true /\
               Keyword r = Some kw /\ k = lower (strip kw).
Proof.
  rewrite load_keywords_rows. intros [= <-].
  assert (Hgen : forall rs d,
    In k (List.map fst (fold_left (load_row lower strip) rs d)) <->
    In k (List.map fst d) \/
    exists r kw, In r rs /\ usable_row r = true /\
                 Keyword r = Some kw /\ k = lower (strip kw)).
  { induction rs as [|r rs IH]; intros d; cbn [fold_left].
    - split; [auto | intros [H|(r & kw & [] & _)]; exact H].
    - rewrite IH.
      destruct (load_row_cases d r) as [[Hu ->]|(kw & cat & Ek & _ & Hu & ->)].
      + split.
        * intros [H|(r' & kw' & Hin & H')]; [left; exact H|].
          right. exists r', kw'. split; [right; exact Hin | exact H'].
        * intros [H|(r' & kw' & [<-|Hin] & Hu' & H')]; [left; exact H | congruence|].
          right. exists r', kw'. auto.
      + rewrite dict_set_key_in. split.
        * intros [[->|H]|(r' & kw' & Hin & H')].
          -- right. exists r, kw. split; [left; reflexivity | auto].
          -- left. exact H.
          -- right. exists r', kw'. split; [right; exact Hin | exact H'].
        * intros [H|(r' & kw' & [<-|Hin] & Hu' & Ek' & ->)].
          -- left. right. exact H.
          -- left. left. congruence.
          -- right. exists r', kw'. auto. }
  rewrite Hgen. simpl. split; [intros [[]|H]; exact H | auto].
Qed.

(** X15. A later row overrides an earlier one with the same phrase: the
    category stored under a phrase is the stripped category of the last
    usable row that carries it. *)
Theorem load_keywords_last_row_wins (src : csv_source) (before after : list row)
    (r : row) (kw cat : string) :
  rows_read src = (before ++ r :: after)%list ->
  Keyword r = Some kw -> Category r = Some cat ->
  kw <> "" -> cat <> "" ->
  Forall (fun r' => forall kw', usable_row r' = true ->
                      Keyword r' = Some kw' ->
                      lower (strip kw') <> lower (strip kw)) after ->
  exists keywords,
    load_keywords lower strip src = Ret keywords /\
    assoc (lower (strip kw)) keywords = Some (strip cat).
Proof.
  intros Hrows Ek Ec Hkw Hcat Hafter.
  rewrite load_keywords_rows, Hrows. eexists. split; [reflexivity|].
  rewrite fold_left_app. cbn [fold_left].
  assert (Hu : usable_row r = true).
  { unfold usable_row. rewrite Ek, Ec.
    destruct (String.eqb_spec kw ""), (String.eqb_spec cat "");
      first [contradiction | reflexivity]. }
  rewrite (load_row_usable _ r kw cat Ek Ec Hu).
  generalize (fold_left (load_row lower strip) before []). intros d0.
  clear Hrows.
  assert (Hgen : forall d, assoc (lower (strip kw)) d = Some (strip cat) ->
            assoc (lower (strip kw)) (fold_left (load_row lower strip) after d) =
            Some (strip cat)).
  { induction Hafter as [|r' rs Hr' _ IH]; intros d Hd; [exact Hd|].
    cbn [fold_left]. apply IH.
    destruct (load_row_cases d r') as [[_ ->]|(kw' & cat' & Ek' & _ & Hu' & ->)];
      [exact Hd|].
    rewrite assoc_dict_set_ne; [exact Hd | exact (Hr' kw' Hu' Ek')]. }
  apply Hgen, assoc_dict_set_eq.
Qed.

End Corpus.

(** ** Credentials from the environment *)

(** X16. [API_KEYS] holds exactly the non-empty values of the variables
    whose name starts with [GROQ_API_KEY_]: it never holds an empty
    credential, and no other variable contributes. *)
Theorem load_api_keys_spec (environ : list (string * string)) (key : string) :
  In key (load_api_keys environ) <->
  key <> "" /\
  exists name, In (name, key) environ /\
               String.prefix "GROQ_API_KEY_" name = true.
Proof.
  unfold load_api_keys. rewrite filter_In, in_map_iff. split.
  - intros [([name v] & Ev & Hin) Hne]. simpl in Ev. subst v.
    apply filter_In in Hin as [Hin Hp]. split.
    + intros ->. discriminate.
    + exists name. split; [exact Hin | exact Hp].
  - intros [Hne (name & Hin & Hp)]. split.
    + exists (name, key). split; [reflexivity|].
      apply filter_In. split; [exact Hin | exact Hp].
    + destruct (String.eqb_spec key ""); [contradiction | reflexivity].
Qed.

(** ** The attempt loop against any backend *)

Lemma cycle_trace_calls (ks : list string) (k : nat) : forall i,
  i < length ks ->
  calls (cycle_trace ks i k) = k /\ rotations (cycle_trace ks i k) = k.
Proof.
  induction k as [|k IH]; intros i Hi; [split; reflexivity|].
  cbn [cycle_trace].
  destruct (lookup_lt_is_Some_2 ks i Hi) as [key ->].
  assert (Hlt : (i + 1) mod length ks < length ks)
    by (apply Nat.mod_upper_bound; lia).
  destruct (IH _ Hlt) as [Hc Hr]. unfold calls, rotations in *. simpl.
  rewrite Hc, Hr. split; reflexivity.
Qed.

Lemma cycle_trace_keys (ks : list string) (k : nat) : forall i key,
  In key (called_keys (cycle_trace ks i k)) -> In key ks.
Proof.
  induction k as [|k IH]; intros i key; [intros []|].
  cbn [cycle_trace]. destruct (ks !! i) as [key0|] eqn:E; [|intros []].
  unfold called_keys. simpl. intros [<-|Hin].
  - apply list_elem_of_In. eapply list_elem_of_lookup_2, E.
  - eapply IH, Hin.
Qed.

(** The [m]-th call of the cycle uses the key [m] places after the cursor,
    wrapping around. *)
Lemma cycle_trace_lookup (ks : list string) (k : nat) : forall i m,
  i < length ks -> m < k ->
  called_keys (cycle_trace ks i k) !! m = ks !! ((i + m) mod length ks).
Proof.
  induction k as [|k IH]; intros i m Hi Hm; [lia|].
  cbn [cycle_trace].
  destruct (lookup_lt_is_Some_2 ks i Hi) as [key Hkey]. rewrite Hkey.
  unfold called_keys. simpl. destruct m as [|m]; simpl.
  - rewrite Nat.add_0_r, Nat.mod_small by exact Hi. symmetry. exact Hkey.
  - assert (Hlt : (i + 1) mod length ks < length ks)
      by (apply Nat.mod_upper_bound; lia).
    fold (called_keys (cycle_trace ks ((i + 1) mod length ks) k)).
    rewrite IH by (assumption || lia).
    rewrite Nat.Div0.add_mod_idemp_l. do 2 f_equal. lia.
Qed.

Lemma called_keys_app (t1 t2 : list event) :
  called_keys (t1 ++ t2) = (called_keys t1 ++ called_keys t2)%list.
Proof. apply omap_app. Qed.

Section AttemptLoop.

Variable lower : string -> string.
Variable backend : Backend.
Variables sender text : json.

(** How every run of the loop goes: [k] rate-limited attempts, each
    followed by a rotation, and then either the attempts are used up, or
    one more call that is answered or fails for another reason. *)
Lemma attempt_loop_run (ks : list string) (n : nat) :
  forall (i a : nat) (t : list event),
  i < length ks ->
  exists k tail r,
    attempt_loop lower backend sender text n a
      {| key_manager := {| keys := ks; current_index := i |}; trace := t |} =
    (r, {| key_manager := {| keys := ks;
                             current_index := (i + k) mod length ks |};
           trace := t ++ cycle_trace ks i k ++ tail |}) /\
    ((k = n /\ tail = [] /\ r = NoResult) \/
     (k < n /\
      exists key, ks !! ((i + k) mod length ks) = Some key /\
                  tail = [Called key] /\
                  match backend (a + k) key sender text with
                  | Completed body => r = Answered body
                  | Failed msg => r = NoResult /\ rate_limited lower msg = false
                  end)).
Proof.
  induction n as [|n IH]; intros i a t Hi.
  - exists 0, [], NoResult. cbn [attempt_loop cycle_trace].
    rewrite Nat.add_0_r, Nat.mod_small, !app_nil_r by exact Hi.
    split; [reflexivity | left; repeat split].
  - destruct (lookup_lt_is_Some_2 ks i Hi) as [key Hkey].
    cbn [attempt_loop]. rewrite (try_body_valid _ _ _ _ _ key) by exact Hkey.
    cbn [key_manager trace].
    destruct (backend a key sender text) as [body|msg] eqn:Eb;
      [|destruct (rate_limited lower msg) eqn:Erl].
    + exists 0, [Called key], (Answered body). cbn [cycle_trace].
      rewrite !Nat.add_0_r, Nat.mod_small by exact Hi. split; [reflexivity|].
      right. split; [lia|]. exists key. rewrite Eb. repeat split. exact Hkey.
    + rewrite Rotation.rotate_valid by exact Hi. cbn [current_index].
      assert (Hlt : (i + 1) mod length ks < length ks)
        by (apply Nat.mod_upper_bound; lia).
      destruct (IH ((i + 1) mod length ks) (S a)
                  ((t ++ [Called key]) ++ [Rotated ((i + 1) mod length ks)])%list
                  Hlt) as (k & tail & r & Eloop & Hend).
      exists (S k), tail, r. rewrite Eloop. cbn [cycle_trace]. rewrite Hkey.
      assert (Eidx : ((i + 1) mod length ks + k) mod length ks =
                     (i + S k) mod length ks).
      { rewrite Nat.Div0.add_mod_idemp_l. f_equal. lia. }
      rewrite Eidx in *. split.
      * f_equal. f_equal. rewrite <- !app_assoc. reflexivity.
      * destruct Hend as [(-> & -> & ->)|(Hk & key' & Hkey' & -> & Hout)].
        -- left. repeat split.
        -- right. split; [lia|]. exists key'. repeat split; [exact Hkey'|].
           replace (a + S k) with (S a + k) by lia. exact Hout.
    + exists 0, [Called key], NoResult. cbn [cycle_trace].
      rewrite !Nat.add_0_r, Nat.mod_small by exact Hi. split; [reflexivity|].
      right. split; [lia|]. exists key. rewrite Eb. repeat split; assumption.
Qed.

(** The loop stops at the first attempt that is not rate-limited. *)
Lemma attempt_loop_stops (ks : list string) (k : nat) :
  forall (n i a : nat) (t : list event) (key : string),
  i < length ks -> k < n ->
  (forall m key', m < k -> ks !! ((i + m) mod length ks) = Some key' ->
     exists msg, backend (a + m) key' sender text = Failed msg /\
                 rate_limited lower msg = true) ->
  ks !! ((i + k) mod length ks) = Some key ->
  match backend (a + k) key sender text with
  | Completed _ => True
  | Failed msg => rate_limited lower msg = false
  end ->
  attempt_loop lower backend sender text n a
    {| key_manager := {| keys := ks; current_index := i |}; trace := t |} =
  (match backend (a + k) key sender text with
   | Completed body => Answered body
   | Failed _ => NoResult
   end,
   {| key_manager := {| keys := ks; current_index := (i + k) mod length ks |};
      trace := t ++ cycle_trace ks i k ++ [Called key] |}).
Proof.
  induction k as [|k IH]; intros n i a t key Hi Hn Hrl Hkey Hout.
  - replace (i + 0) with i in * by lia. replace (a + 0) with a in * by lia.
    rewrite Nat.mod_small in * by exact Hi.
    destruct n as [|n]; [lia|]. cbn [attempt_loop cycle_trace].
    rewrite (try_body_valid _ _ _ _ _ key) by exact Hkey.
    destruct (backend a key sender text) as [body|msg]; [reflexivity|].
    rewrite Hout. reflexivity.
  - destruct n as [|n]; [lia|].
    destruct (lookup_lt_is_Some_2 ks i Hi) as [key0 Hkey0].
    destruct (Hrl 0 key0) as (msg & Emsg & Erl); [lia| |].
    { rewrite Nat.add_0_r, Nat.mod_small by exact Hi. exact Hkey0. }
    rewrite Nat.add_0_r in Emsg.
    cbn [attempt_loop cycle_trace].
    rewrite (try_body_valid _ _ _ _ _ key0) by exact Hkey0.
    rewrite Emsg, Erl, Hkey0. cbn [key_manager trace].
    rewrite Rotation.rotate_valid by exact Hi. cbn [current_index].
    assert (Hlt : (i + 1) mod length ks < length ks)
      by (apply Nat.mod_upper_bound; lia).
    assert (Eidx : forall m, ((i + 1) mod length ks + m) mod length ks =
                             (i + S m) mod length ks).
    { intros m. rewrite Nat.Div0.add_mod_idemp_l. f_equal. lia. }
    rewrite (IH n ((i + 1) mod length ks) (S a) _ key Hlt).
    + replace (S a + k) with (a + S k) by lia. rewrite Eidx.
      f_equal. f_equal. rewrite <- !app_assoc. reflexivity.
    + lia.
    + intros m key' Hm Hk'. rewrite Eidx in Hk'.
      replace (S a + m) with (a + S m) by lia. apply Hrl; [lia | exact Hk'].
    + rewrite Eidx. exact Hkey.
    + replace (S a + k) with (a + S k) by lia. exact Hout.
Qed.

End AttemptLoop.

Lemma called_keys_length (t : list event) : length (called_keys t) = calls t.
Proof.
  induction t as [|[key|j] t IH]; [reflexivity| |].
  - change (S (length (called_keys t)) = S (calls t)). rewrite IH. reflexivity.
  - exact IH.
Qed.

(** The calls of a full cycle: the keys from the cursor to the end of the
    list, then those before the cursor. *)
Lemma cycle_trace_full (ks : list string) (i : nat) :
  i < length ks ->
  called_keys (cycle_trace ks i (length ks)) = (drop i ks ++ take i ks)%list.
Proof.
  intros Hi. apply list_eq. intros m.
  destruct (Nat.lt_ge_cases m (length ks)) as [Hm|Hm].
  - rewrite cycle_trace_lookup by assumption.
    destruct (Nat.lt_ge_cases m (length ks - i)) as [Hl|Hl].
    + rewrite lookup_app_l by (rewrite length_drop; exact Hl).
      rewrite lookup_drop, Nat.mod_small by lia. reflexivity.
    + rewrite lookup_app_r by (rewrite length_drop; exact Hl).
      rewrite length_drop, lookup_take_lt by lia. f_equal.
      replace (i + m) with ((m - (length ks - i)) + 1 * length ks) by lia.
      rewrite Nat.Div0.mod_add. apply Nat.mod_small. lia.
  - rewrite !lookup_ge_None_2; [reflexivity| |].
    + rewrite length_app, length_drop, length_take. lia.
    + rewrite called_keys_length.
      rewrite (proj1 (cycle_trace_calls ks (length ks) i Hi)). exact Hm.
Qed.

Section Requests.

Variable lower : string -> string.
Variable keywords : dict.

(** The world after a request: untouched when the payload is refused or
    unusable, else as the attempt loop leaves it. *)
Lemma classify_email_world (backend : Backend) (data : json) (w : World) :
  snd (classify_email lower keywords backend data w) = w \/
  exists fields,
    data = JObj fields /\ fields <> [] /\
    snd (classify_email lower keywords backend data w) =
    snd (attempt_loop lower backend (sender_of fields) (text_of fields)
           (length (keys (key_manager w))) 0 w).
Proof.
  destruct (truthy data) eqn:Et.
  - destruct data as [| | | | |fields];
      try (left; unfold classify_email; rewrite Et; reflexivity).
    right. exists fields. assert (Hne : fields <> [])
      by (intros ->; discriminate).
    split; [reflexivity|]. split; [exact Hne|].
    rewrite classify_email_object by exact Hne.
    destruct (attempt_loop _ _ _ _ _ _ _) as [[b| |e] w']; reflexivity.
  - left. unfold classify_email. rewrite Et. reflexivity.
Qed.

Lemma classify_email_run (backend : Backend) (data : json) (ks : list string)
    (i : nat) (t : list event) :
  ks = [] \/ i < length ks ->
  exists k tail,
    snd (classify_email lower keywords backend data
           {| key_manager := {| keys := ks; current_index := i |};
              trace := t |}) =
    {| key_manager := {| keys := ks; current_index := (i + k) mod length ks |};
       trace := t ++ cycle_trace ks i k ++ tail |} /\
    k <= length ks /\
    (tail = [] \/
     (k < length ks /\ exists key, In key ks /\ tail = [Called key])).
Proof.
  intros Hok.
  assert (Hstill : exists k tail,
    {| key_manager := {| keys := ks; current_index := i |}; trace := t |} =
    {| key_manager := {| keys := ks; current_index := (i + k) mod length ks |};
       trace := t ++ cycle_trace ks i k ++ tail |} /\
    k <= length ks /\
    (tail = [] \/
     (k < length ks /\ exists key, In key ks /\ tail = [Called key]))).
  { exists 0, []. cbn [cycle_trace]. rewrite Nat.add_0_r, !app_nil_r.
    split; [|split; [lia | left; reflexivity]].
    destruct Hok as [->|Hi]; [reflexivity | rewrite Nat.mod_small by exact Hi; reflexivity]. }
  destruct (classify_email_world backend data
              {| key_manager := {| keys := ks; current_index := i |};
                 trace := t |}) as [->|(fields & _ & _ & ->)];
    [exact Hstill|].
  cbn [key_manager keys]. destruct Hok as [->|Hi]; [exact Hstill|].
  destruct (attempt_loop_run lower backend (sender_of fields) (text_of fields)
              ks (length ks) i 0 t Hi) as (k & tail & r & -> & Hend).
  exists k, tail. split; [reflexivity|].
  destruct Hend as [(-> & -> & _)|(Hk & key & Hkey & -> & _)].
  - split; [lia | left; reflexivity].
  - split; [lia|]. right. split; [exact Hk|]. exists key.
    split; [|reflexivity]. apply list_elem_of_In.
    eapply list_elem_of_lookup_2, Hkey.
Qed.

(** X1. Whatever the payload and whatever the backend does, a request
    leaves the key list as it was and the cursor valid: a rotator that is
    empty or has its cursor inside the list is still so afterwards. *)
Theorem classify_email_keeps_rotator (backend : Backend) (data : json)
    (w : World) :
  km_ok (key_manager w) ->
  keys (key_manager (snd (classify_email lower keywords backend data w))) =
    keys (key_manager w) /\
  km_ok (key_manager (snd (classify_email lower keywords backend data w))).
Proof.
  destruct w as [[ks i] t]. unfold km_ok. cbn [key_manager keys current_index].
  intros Hok.
  destruct (classify_email_run backend data ks i t Hok) as (k & tail & -> & _).
  cbn [key_manager keys current_index]. split; [reflexivity|].
  destruct Hok as [->|Hi]; [left; reflexivity|].
  right. apply Nat.mod_upper_bound. lia.
Qed.

(** X2. The attempt budget of one request. The events a request adds to the
    trace hold at most L calls for L keys; calls and rotations alternate,
    so there are as many rotations as calls or one fewer; every call uses a
    key of the list; and the cursor has advanced by the number of
    rotations, modulo L. *)
Theorem classify_email_budget (backend : Backend) (data : json) (w : World) :
  km_ok (key_manager w) ->
  exists t,
    trace (snd (classify_email lower keywords backend data w)) =
      (trace w ++ t)%list /\
    calls t <= length (keys (key_manager w)) /\
    rotations t <= calls t <= rotations t + 1 /\
    (forall key, In key (called_keys t) -> In key (keys (key_manager w))) /\
    current_index
      (key_manager (snd (classify_email lower keywords backend data w))) =
    (current_index (key_manager w) + rotations t)
      mod length (keys (key_manager w)).
Proof.
  destruct w as [[ks i] t0]. unfold km_ok. cbn [key_manager keys current_index trace].
  intros Hok.
  destruct (classify_email_run backend data ks i t0 Hok)
    as (k & tail & -> & Hk & Htail).
  cbn [key_manager keys current_index trace].
  exists (cycle_trace ks i k ++ tail)%list. split; [reflexivity|].
  assert (Hcr : calls (cycle_trace ks i k) = k /\
                rotations (cycle_trace ks i k) = k).
  { destruct Hok as [->|Hi]; [|apply cycle_trace_calls, Hi].
    simpl in Hk. replace k with 0 by lia. split; reflexivity. }
  destruct Hcr as [Hc Hr]. rewrite calls_app, rotations_app, Hc, Hr.
  assert (Hkeys : forall key,
            In key (called_keys (cycle_trace ks i k ++ tail)) -> In key ks).
  { intros key. rewrite called_keys_app, in_app_iff. intros [Hin|Hin].
    - eapply cycle_trace_keys, Hin.
    - destruct Htail as [->|(_ & key' & Hin' & ->)]; [destruct Hin|].
      destruct Hin as [<-|[]]. exact Hin'. }
  destruct Htail as [->|(Hlt & key & _ & ->)].
  - change (calls []) with 0. change (rotations []) with 0.
    rewrite !Nat.add_0_r. repeat split; try lia. exact Hkeys.
  - change (calls [Called key]) with 1. change (rotations [Called key]) with 0.
    rewrite !Nat.add_0_r. repeat split; try lia. exact Hkeys.
Qed.

(** X3. An answer after [k] rate limits. When the first [k] attempts are
    rate-limited and the next one is answered, with [k] below the number
    of keys, the response is the backend's body with status 200, the
    request made [k + 1] calls and [k] rotations, and the cursor is left
    on the key that worked. *)
Theorem ai_answer_after_rotations (backend : Backend)
    (fields : list (string * json)) (ks : list string) (i k : nat)
    (t : list event) (key : string) (body : json) :
  fields <> [] ->
  i < length ks -> k < length ks ->
  (forall m key', m < k -> ks !! ((i + m) mod length ks) = Some key' ->
     exists msg,
       backend m key' (sender_of fields) (text_of fields) = Failed msg /\
       rate_limited lower msg = true) ->
  ks !! ((i + k) mod length ks) = Some key ->
  backend k key (sender_of fields) (text_of fields) = Completed body ->
  classify_email lower keywords backend (JObj fields)
    {| key_manager := {| keys := ks; current_index := i |}; trace := t |} =
  (Ret (body, 200),
   {| key_manager := {| keys := ks; current_index := (i + k) mod length ks |};
      trace := t ++ cycle_trace ks i k ++ [Called key] |}) /\
  calls (cycle_trace ks i k ++ [Called key]) = k + 1 /\
  rotations (cycle_trace ks i k ++ [Called key]) = k.
Proof.
  intros Hne Hi Hk Hrl Hkey Hans. split.
  - rewrite classify_email_object by exact Hne. cbn [key_manager keys].
    rewrite (attempt_loop_stops lower backend (sender_of fields)
               (text_of fields) ks k (length ks) i 0 t key Hi Hk);
      cbn [Nat.add]; rewrite ?Hans; auto.
  - destruct (cycle_trace_calls ks k i Hi) as [Hc Hr].
    rewrite calls_app, rotations_app, Hc, Hr.
    change (calls [Called key]) with 1.
    change (rotations [Called key]) with 0. split; lia.
Qed.

(** X4. Another error after [k] rate limits. When the first [k] attempts
    are rate-limited and the next one fails for another reason, the loop
    stops there: the remaining keys are not tried, the cursor stays on the
    key that failed, and the response is the local scan of the text. *)
Theorem other_error_after_rotations (backend : Backend)
    (fields : list (string * json)) (ks : list string) (i k : nat)
    (t : list event) (key msg : string) :
  fields <> [] ->
  i < length ks -> k < length ks ->
  (forall m key', m < k -> ks !! ((i + m) mod length ks) = Some key' ->
     exists msg',
       backend m key' (sender_of fields) (text_of fields) = Failed msg' /\
       rate_limited lower msg' = true) ->
  ks !! ((i + k) mod length ks) = Some key ->
  backend k key (sender_of fields) (text_of fields) = Failed msg ->
  rate_limited lower msg = false ->
  classify_email lower keywords backend (JObj fields)
    {| key_manager := {| keys := ks; current_index := i |}; trace := t |} =
  (fallback_result ← local_keyword_scan lower keywords (text_of fields);
   Ret (fallback_result, 200),
   {| key_manager := {| keys := ks; current_index := (i + k) mod length ks |};
      trace := t ++ cycle_trace ks i k ++ [Called key] |}) /\
  calls (cycle_trace ks i k ++ [Called key]) = k + 1 /\
  rotations (cycle_trace ks i k ++ [Called key]) = k.
Proof.
  intros Hne Hi Hk Hrl Hkey Hfail Hother. split.
  - rewrite classify_email_object by exact Hne. cbn [key_manager keys].
    rewrite (attempt_loop_stops lower backend (sender_of fields)
               (text_of fields) ks k (length ks) i 0 t key Hi Hk);
      cbn [Nat.add]; rewrite ?Hfail; auto.
  - destruct (cycle_trace_calls ks k i Hi) as [Hc Hr].
    rewrite calls_app, rotations_app, Hc, Hr.
    change (calls [Called key]) with 1.
    change (rotations [Called key]) with 0. split; lia.
Qed.

(** C4. If the backend answers every attempt with a rate-limit error and
    the credential list has length L, the request makes exactly L backend
    calls and exactly L rotations: each call uses the key under the
    cursor, each rotation moves the cursor to the next key modulo L, so
    the keys are called once each, from the cursor on and around, and the
    rotator ends where L calls of [rotate] bring it, its starting state.
    The response is the local scan of the request text with status 200. *)
Theorem all_rate_limited_falls_back (backend : Backend)
    (fields : list (string * json)) (w : World) :
  fields <> [] ->
  keys (key_manager w) = [] \/
    current_index (key_manager w) < length (keys (key_manager w)) ->
  (forall a key, exists msg,
      backend a key (sender_of fields) (text_of fields) = Failed msg /\
      rate_limited lower msg = true) ->
  exists t,
    classify_email lower keywords backend (JObj fields) w =
      (fallback_result ← local_keyword_scan lower keywords (text_of fields);
       Ret (fallback_result, 200),
       {| key_manager := key_manager w; trace := trace w ++ t |}) /\
    calls t = length (keys (key_manager w)) /\
    rotations t = length (keys (key_manager w)) /\
    t = cycle_trace (keys (key_manager w)) (current_index (key_manager w))
          (length (keys (key_manager w))) /\
    called_keys t =
      (drop (current_index (key_manager w)) (keys (key_manager w)) ++
       take (current_index (key_manager w)) (keys (key_manager w)))%list /\
    rotate_n (length (keys (key_manager w))) (key_manager w) =
      Ret (key_manager w).
Proof.
  intros Hne Hok Hrl. rewrite classify_email_object by exact Hne.
  destruct w as [[ks i] t0]. cbn [key_manager keys current_index trace] in *.
  destruct Hok as [->|Hi].
  - exists []. cbn [length attempt_loop cycle_trace rotate_n].
    rewrite app_nil_r, drop_nil, take_nil. repeat split.
  - assert (Eback : (i + length ks) mod length ks = i).
    { rewrite <- (Nat.mul_1_l (length ks)) at 1.
      rewrite Nat.Div0.mod_add. apply Nat.mod_small, Hi. }
    exists (cycle_trace ks i (length ks)).
    destruct (cycle_trace_calls ks (length ks) i Hi) as [Hc Hr].
    split; [|split; [exact Hc|split; [exact Hr|split; [reflexivity|split]]]].
    + destruct (attempt_loop_run lower backend (sender_of fields)
                  (text_of fields) ks (length ks) i 0 t0 Hi)
        as (k & tail & r & -> & Hend).
      destruct Hend as [(-> & -> & ->)|(Hk & key & _ & _ & Hout)].
      * rewrite app_nil_r, Eback. reflexivity.
      * exfalso. destruct (Hrl (0 + k) key) as (msg & Emsg & Erl).
        rewrite Emsg in Hout. destruct Hout as [_ Hno]. congruence.
    + apply cycle_trace_full, Hi.
    + rewrite Rotation.rotate_n_valid by exact Hi. rewrite Eback. reflexivity.
Qed.

End Requests.

Section Sessions.

Variable lower : string -> string.

(** X5. When every credential is rate-limited, each key is tried exactly
    once, in the order of the list starting from the cursor and wrapping
    around: the keys called are those from the cursor on, then those
    before it. *)
Theorem exhausted_tries_each_key_once (keywords : dict) (backend : Backend)
    (fields : list (string * json)) (ks : list string) (i : nat)
    (t : list event) :
  fields <> [] ->
  i < length ks ->
  (forall a key, exists msg,
      backend a key (sender_of fields) (text_of fields) = Failed msg /\
      rate_limited lower msg = true) ->
  snd (classify_email lower keywords backend (JObj fields)
         {| key_manager := {| keys := ks; current_index := i |};
            trace := t |}) =
    {| key_manager := {| keys := ks; current_index := i |};
       trace := t ++ cycle_trace ks i (length ks) |} /\
  called_keys (cycle_trace ks i (length ks)) = (drop i ks ++ take i ks)%list /\
  called_keys (cycle_trace ks i (length ks)) ≡ₚ ks.
Proof.
  intros Hne Hi Hrl.
  assert (Hfull := cycle_trace_full ks i Hi).
  split; [|split; [exact Hfull|]].
  - rewrite classify_email_object by exact Hne. cbn [key_manager keys].
    destruct (attempt_loop_run lower backend (sender_of fields)
                (text_of fields) ks (length ks) i 0 t Hi)
      as (k & tail & r & -> & Hend).
    destruct Hend as [(-> & -> & ->)|(Hk & key & _ & _ & Hout)].
    + cbn [snd]. rewrite app_nil_r. do 2 f_equal.
      rewrite <- (Nat.mul_1_l (length ks)) at 1.
      rewrite Nat.Div0.mod_add. apply Nat.mod_small, Hi.
    + exfalso. destruct (Hrl (0 + k) key) as (msg & Emsg & Erl).
      rewrite Emsg in Hout. destruct Hout as [_ Hno]. congruence.
  - rewrite Hfull, Permutation_app_comm, take_drop. reflexivity.
Qed.

Lemma local_keyword_scan_raises (keywords : dict) (text : json) (e : exn) :
  local_keyword_scan lower keywords text = Raise e <->
  e = AttributeError /\ forall s, text <> JStr s.
Proof.
  destruct text as [| | |s| |];
    try (cbn; split;
         [ intros [= <-]; split; [reflexivity | intros s; discriminate]
         | intros [-> _]; reflexivity ]).
  rewrite local_keyword_scan_str. split; [discriminate|].
  intros [_ Hs]. exfalso. exact (Hs s eq_refl).
Qed.

(** X6. From the parsed payload on, the body of the view raises in exactly
    two cases, and then it is [AttributeError]: the payload is truthy but
    no object, or the payload is an object, the attempt loop ended without
    a result and the text field is not a string. Neither the list access of
    [get_client] nor the modulo of [rotate] ever fails a request. On a
    payload that is no object nothing is called and the state is untouched. *)
Theorem classify_email_raises (keywords : dict) (backend : Backend)
    (data : json) (w : World) (e : exn) :
  (fst (classify_email lower keywords backend data w) = Raise e <->
   e = AttributeError /\ truthy data = true /\
   ((forall fields, data <> JObj fields) \/
    (exists fields,
       data = JObj fields /\
       (forall s, text_of fields <> JStr s) /\
       fst (attempt_loop lower backend (sender_of fields) (text_of fields)
              (length (keys (key_manager w))) 0 w) = NoResult))) /\
  ((forall fields, data <> JObj fields) ->
   snd (classify_email lower keywords backend data w) = w).
Proof.
  split.
  2:{ intros Hno. unfold classify_email.
      destruct (negb (truthy data)); [reflexivity|].
      destruct data as [| | | | |fields]; try reflexivity.
      exfalso. exact (Hno fields eq_refl). }
  destruct (truthy data) eqn:Et.
  2:{ split; [|intros (_ & [=] & _)].
      unfold classify_email. rewrite Et. discriminate. }
  destruct data as [| | | | |fields];
    try (unfold classify_email; rewrite Et; cbn; split;
         [ intros [= <-]; repeat split; left; intros ?; discriminate
         | intros (-> & _); reflexivity ]).
  assert (Hne : fields <> []) by (intros ->; discriminate).
  rewrite classify_email_object by exact Hne.
  pose proof (attempt_loop_shape lower backend (sender_of fields)
                (text_of fields) (length (keys (key_manager w))) 0 w
                (keys_nonempty_or_zero _)) as Hshape.
  destruct (attempt_loop _ _ _ _ _ _ _) as [[b| |e'] w'] eqn:Eloop;
    cbn [fst] in *.
  - split; [discriminate|].
    intros (_ & _ & [Hno|(fields' & Hf & _ & Hres)]).
    + exfalso. exact (Hno fields eq_refl).
    + injection Hf as <-. rewrite Eloop in Hres. discriminate Hres.
  - destruct (local_keyword_scan lower keywords (text_of fields))
      as [r|e0] eqn:Escan; cbn.
    + split; [discriminate|].
      intros (_ & _ & [Hno|(fields' & Hf & Htext & _)]).
      * exfalso. exact (Hno fields eq_refl).
      * injection Hf as <-.
        assert (Eraise : local_keyword_scan lower keywords (text_of fields) =
                         Raise AttributeError)
          by (apply local_keyword_scan_raises; split; [reflexivity | exact Htext]).
        congruence.
    + apply local_keyword_scan_raises in Escan as [-> Htext]. split.
      * intros [= <-]. repeat split. right. exists fields.
        split; [reflexivity|]. split; [exact Htext|].
        rewrite Eloop. reflexivity.
      * intros (-> & _). reflexivity.
  - contradiction.
Qed.

Lemma load_api_keys_nonempty (environ : list (string * string)) (key : string) :
  In key (load_api_keys environ) -> key <> "".
Proof.
  unfold load_api_keys. rewrite filter_In. intros [_ Hne] ->. discriminate.
Qed.

(** One request: the key list and the validity of the cursor are kept, and
    at most one call per key is added. *)
Lemma classify_email_step (keywords : dict) (backend : Backend) (data : json)
    (w : World) :
  km_ok (key_manager w) ->
  keys (key_manager (snd (classify_email lower keywords backend data w))) =
    keys (key_manager w) /\
  km_ok (key_manager (snd (classify_email lower keywords backend data w))) /\
  calls (trace (snd (classify_email lower keywords backend data w))) <=
    calls (trace w) + length (keys (key_manager w)).
Proof.
  destruct w as [[ks i] t]. unfold km_ok.
  cbn [key_manager keys current_index trace]. intros Hok.
  destruct (classify_email_run lower keywords backend data ks i t Hok)
    as (k & tail & -> & Hk & Htail).
  cbn [key_manager keys current_index trace].
  split; [reflexivity|]. split.
  - destruct Hok as [->|Hi]; [left; reflexivity|].
    right. apply Nat.mod_upper_bound. lia.
  - assert (Hc : calls (cycle_trace ks i k) = k).
    { destruct Hok as [->|Hi]; [|apply cycle_trace_calls, Hi].
      simpl in Hk. replace k with 0 by lia. reflexivity. }
    rewrite !calls_app, Hc.
    destruct Htail as [->|(Hlt & key & _ & ->)].
    + change (calls []) with 0. lia.
    + change (calls [Called key]) with 1. lia.
Qed.

Lemma serve_all_invariant (keywords : dict) (requests : list (Backend * json)) :
  forall w, km_ok (key_manager w) ->
  keys (key_manager (snd (serve_all lower keywords requests w))) =
    keys (key_manager w) /\
  km_ok (key_manager (snd (serve_all lower keywords requests w))) /\
  calls (trace (snd (serve_all lower keywords requests w))) <=
    calls (trace w) + length requests * length (keys (key_manager w)).
Proof.
  induction requests as [|[backend data] rest IH]; intros w Hok.
  - simpl. repeat split; [exact Hok | lia].
  - cbn [serve_all].
    pose proof (classify_email_step keywords backend data w Hok)
      as (Hkeys & Hok1 & Hcalls).
    destruct (classify_email lower keywords backend data w) as [resp w1].
    cbn [fst snd] in *.
    destruct (IH w1 Hok1) as (Hk & Hok2 & Hc).
    destruct (serve_all lower keywords rest w1) as [resps w2].
    cbn [fst snd length] in *. rewrite Hkeys in *.
    repeat split; [congruence | exact Hok2 | lia].
Qed.

(** X7. Across a run of the process. After initialisation, whatever parsed
    payloads are handled one after the other and whatever the backend does
    on each: the key list is still the one read from the environment; the
    cursor is still valid, so that with at least one credential
    [get_client] finds a key, which is a non-empty value read from the
    environment; and the backend has been called at most L times per
    request, for L credentials. *)
Theorem process_keeps_rotator_valid (strip : string -> string)
    (environ : list (string * string)) (src : csv_source) (app : App)
    (requests : list (Backend * json)) :
  startup lower strip environ src = Ret app ->
  let run := serve_all lower (PHISHING_KEYWORDS app) requests
               {| key_manager := app_key_manager app; trace := [] |} in
  keys (key_manager (snd run)) = load_api_keys environ /\
  km_ok (key_manager (snd run)) /\
  (load_api_keys environ <> [] ->
   exists key, get_client (key_manager (snd run)) = Ret key /\
               In key (load_api_keys environ) /\ key <> "") /\
  calls (trace (snd run)) <= length requests * length (load_api_keys environ).
Proof.
  unfold startup. rewrite load_keywords_rows. intros [= <-]. cbn zeta.
  cbn [app_key_manager PHISHING_KEYWORDS].
  destruct (serve_all_invariant
              (fold_left (load_row lower strip) (rows_read src) []) requests
              {| key_manager := KeyManager_init (load_api_keys environ);
                 trace := [] |}) as (Hkeys & Hok & Hcalls).
  { unfold km_ok, KeyManager_init. cbn [key_manager keys current_index].
    destruct (load_api_keys environ); [left; reflexivity | right; simpl; lia]. }
  cbn [key_manager keys KeyManager_init trace] in Hkeys, Hcalls.
  split; [exact Hkeys|]. split; [exact Hok|]. split; [|exact Hcalls].
  intros Hne. unfold km_ok in Hok. rewrite Hkeys in Hok.
  destruct Hok as [E|Hlt]; [contradiction|].
  unfold get_client. rewrite Hkeys.
  destruct (lookup_lt_is_Some_2 _ _ Hlt) as [key Hkey]. rewrite Hkey.
  exists key. split; [reflexivity|].
  assert (Hin : In key (load_api_keys environ)).
  { apply list_elem_of_In. eapply list_elem_of_lookup_2, Hkey. }
  split; [exact Hin | exact (load_api_keys_nonempty environ key Hin)].
Qed.

End Sessions.

(** ** The further properties on concrete inputs *)

Module MoreExamples.

Lemma all_rate_limited_falls_back_witness :
  exists t,
    classify_email ascii_lower demo_keywords rate_limiting
      (JObj [("text", JStr "urgent")]) three_keys =
      (Ret (result "phishing"
              "High risk detected. Matches themes: Urgency." 0.8%Q, 200),
       {| key_manager := key_manager three_keys; trace := t |}) /\
    calls t = 3 /\ rotations t = 3 /\
    t = [Called "gsk_b"; Rotated 2; Called "gsk_c"; Rotated 0;
         Called "gsk_a"; Rotated 1] /\
    called_keys t = ["gsk_b"; "gsk_c"; "gsk_a"] /\
    rotate_n 3 (key_manager three_keys) = Ret (key_manager three_keys).
Proof.
  apply (all_rate_limited_falls_back ascii_lower demo_keywords rate_limiting
           [("text", JStr "urgent")] three_keys).
  - discriminate.
  - right. simpl. lia.
  - intros a key. eexists. split; reflexivity.
Defined.

Lemma classify_email_keeps_rotator_witness :
  keys (key_manager (snd (classify_email ascii_lower demo_keywords second_try
                            (JObj [("text", JStr "urgent")]) three_keys))) =
    ["gsk_a"; "gsk_b"; "gsk_c"] /\
  km_ok (key_manager (snd (classify_email ascii_lower demo_keywords second_try
                             (JObj [("text", JStr "urgent")]) three_keys))).
Proof.
  apply (classify_email_keeps_rotator ascii_lower demo_keywords second_try
           (JObj [("text", JStr "urgent")]) three_keys).
  right. simpl. lia.
Defined.

Lemma classify_email_budget_witness :
  exists t,
    trace (snd (classify_email ascii_lower demo_keywords limited_then_down
                  (JObj [("text", JStr "urgent")]) three_keys)) =
      (trace three_keys ++ t)%list /\
    calls t <= 3 /\
    rotations t <= calls t <= rotations t + 1 /\
    (forall key, In key (called_keys t) -> In key ["gsk_a"; "gsk_b"; "gsk_c"]) /\
    current_index
      (key_manager (snd (classify_email ascii_lower demo_keywords
                           limited_then_down
                           (JObj [("text", JStr "urgent")]) three_keys))) =
    (1 + rotations t) mod 3.
Proof.
  apply (classify_email_budget ascii_lower demo_keywords limited_then_down
           (JObj [("text", JStr "urgent")]) three_keys).
  right. simpl. lia.
Defined.

Lemma ai_answer_after_rotations_witness :
  classify_email ascii_lower demo_keywords second_try
    (JObj [("text", JStr "urgent")])
    {| key_manager := {| keys := ["gsk_a"; "gsk_b"; "gsk_c"];
                         current_index := 2 |};
       trace := [] |} =
  (Ret (result "safe" "Routine newsletter." 0.9%Q, 200),
   {| key_manager := {| keys := ["gsk_a"; "gsk_b"; "gsk_c"];
                        current_index := 0 |};
      trace := [Called "gsk_c"; Rotated 0; Called "gsk_a"] |}) /\
  calls [Called "gsk_c"; Rotated 0; Called "gsk_a"] = 2 /\
  rotations [Called "gsk_c"; Rotated 0; Called "gsk_a"] = 1.
Proof.
  apply (ai_answer_after_rotations ascii_lower demo_keywords second_try
           [("text", JStr "urgent")] ["gsk_a"; "gsk_b"; "gsk_c"] 2 1 []
           "gsk_a" (result "safe" "Routine newsletter." 0.9%Q)).
  - discriminate.
  - simpl. lia.
  - simpl. lia.
  - intros m key' Hm _. destruct m as [|m]; [|lia].
    eexists. split; reflexivity.
  - reflexivity.
  - reflexivity.
Defined.

Lemma other_error_after_rotations_witness :
  classify_email ascii_lower demo_keywords limited_then_down
    (JObj [("text", JStr "urgent")]) three_keys =
  (Ret (result "phishing"
          "High risk detected. Matches themes: Urgency." 0.8%Q, 200),
   {| key_manager := {| keys := ["gsk_a"; "gsk_b"; "gsk_c"];
                        current_index := 2 |};
      trace := [Called "gsk_b"; Rotated 2; Called "gsk_c"] |}) /\
  calls [Called "gsk_b"; Rotated 2; Called "gsk_c"] = 2 /\
  rotations [Called "gsk_b"; Rotated 2; Called "gsk_c"] = 1.
Proof.
  apply (other_error_after_rotations ascii_lower demo_keywords
           limited_then_down [("text", JStr "urgent")]
           ["gsk_a"; "gsk_b"; "gsk_c"] 1 1 [] "gsk_c" "Connection error.").
  - discriminate.
  - simpl. lia.
  - simpl. lia.
  - intros m key' Hm _. destruct m as [|m]; [|lia].
    eexists. split; reflexivity.
  - reflexivity.
  - reflexivity.
  - reflexivity.
Defined.

Lemma exhausted_tries_each_key_once_witness :
  snd (classify_email ascii_lower demo_keywords rate_limiting
         (JObj [("text", JStr "urgent")]) three_keys) =
    {| key_manager := {| keys := ["gsk_a"; "gsk_b"; "gsk_c"];
                         current_index := 1 |};
       trace := [Called "gsk_b"; Rotated 2; Called "gsk_c"; Rotated 0;
                 Called "gsk_a"; Rotated 1] |} /\
  called_keys [Called "gsk_b"; Rotated 2; Called "gsk_c"; Rotated 0;
               Called "gsk_a"; Rotated 1] = ["gsk_b"; "gsk_c"; "gsk_a"] /\
  called_keys [Called "gsk_b"; Rotated 2; Called "gsk_c"; Rotated 0;
               Called "gsk_a"; Rotated 1] ≡ₚ ["gsk_a"; "gsk_b"; "gsk_c"].
Proof.
  apply (exhausted_tries_each_key_once ascii_lower demo_keywords rate_limiting
           [("text", JStr "urgent")] ["gsk_a"; "gsk_b"; "gsk_c"] 1 []).
  - discriminate.
  - simpl. lia.
  - intros a key. eexists. split; reflexivity.
Defined.

Lemma classify_email_raises_witness :
  AttributeError = AttributeError /\
  truthy (JObj [("text", JNum 5)]) = true /\
  ((forall fields, JObj [("text", JNum 5)] <> JObj fields) \/
   (exists fields,
      JObj [("text", JNum 5)] = JObj fields /\
      (forall s, text_of fields <> JStr s) /\
      fst (attempt_loop ascii_lower unreachable (sender_of fields)
             (text_of fields) 3 0 three_keys) = NoResult)).
Proof.
  apply (proj1 (proj1 (classify_email_raises ascii_lower demo_keywords
                         unreachable (JObj [("text", JNum 5)]) three_keys
                         AttributeError))).
  reflexivity.
Defined.

Lemma process_keeps_rotator_valid_witness :
  let run :=
    serve_all ascii_lower [("verify now", "Urgency")]
      [(rate_limiting, JObj [("text", JStr "Verify NOW")]);
       (careless, JObj []);
       (second_try, JObj [("text", JNum 5)]);
       (unreachable, JStr "hello")]
      {| key_manager := KeyManager_init ["gsk_a"; "gsk_b"]; trace := [] |} in
  keys (key_manager (snd run)) =
    load_api_keys [("GROQ_API_KEY_1", "gsk_a"); ("HOME", "/root");
                   ("GROQ_API_KEY_2", "gsk_b")] /\
  km_ok (key_manager (snd run)) /\
  (load_api_keys [("GROQ_API_KEY_1", "gsk_a"); ("HOME", "/root");
                  ("GROQ_API_KEY_2", "gsk_b")] <> [] ->
   exists key,
     get_client (key_manager (snd run)) = Ret key /\
     In key (load_api_keys [("GROQ_API_KEY_1", "gsk_a"); ("HOME", "/root");
                            ("GROQ_API_KEY_2", "gsk_b")]) /\
     key <> "") /\
  calls (trace (snd run)) <= 4 * 2.
Proof.
  apply (process_keeps_rotator_valid ascii_lower ascii_strip
           [("GROQ_API_KEY_1", "gsk_a"); ("HOME", "/root");
            ("GROQ_API_KEY_2", "gsk_b")]
           torn_file
           {| app_key_manager := KeyManager_init ["gsk_a"; "gsk_b"];
              PHISHING_KEYWORDS := [("verify now", "Urgency")] |}
           [(rate_limiting, JObj [("text", JStr "Verify NOW")]);
            (careless, JObj []);
            (second_try, JObj [("text", JNum 5)]);
            (unreachable, JStr "hello")]).
  reflexivity.
Defined.

Lemma found_categories_are_matched_witness :
  "Urgency" ∈ snd (scan_loop ascii_lower demo_keywords "urgent: act now").
Proof.
  apply (proj2 (found_categories_are_matched ascii_lower demo_keywords
                  "urgent: act now" "Urgency")).
  exists "urgent". split; [|reflexivity].
  apply list_elem_of_In. simpl. auto.
Defined.

Lemma scan_order_irrelevant_witness :
  scan_loop ascii_lower
    [("account suspended", "Security/Account"); ("urgent", "Urgency")]
    "urgent: account suspended" =
  scan_loop ascii_lower
    [("urgent", "Urgency"); ("account suspended", "Security/Account")]
    "urgent: account suspended".
Proof.
  apply (scan_order_irrelevant ascii_lower
           [("account suspended", "Security/Account"); ("urgent", "Urgency")]
           [("urgent", "Urgency"); ("account suspended", "Security/Account")]).
  apply perm_swap.
Defined.

Lemma matching_entry_contributes_witness :
  weight "Urgency" <=
    fst (scan_loop ascii_lower demo_keywords (ascii_lower "URGENT notice")) /\
  "Urgency" ∈
    snd (scan_loop ascii_lower demo_keywords (ascii_lower "URGENT notice")) /\
  (weight "Urgency" = 5 ->
   exists r, local_keyword_scan ascii_lower demo_keywords
               (JStr "URGENT notice") = Ret r /\
             label_of r = Some (JStr "phishing")).
Proof.
  apply (matching_entry_contributes ascii_lower demo_keywords "URGENT notice"
           "urgent" "Urgency").
  - apply list_elem_of_In. simpl. auto.
  - reflexivity.
Defined.

Lemma score_bounds_witness :
  exists r,
    local_keyword_scan ascii_lower demo_keywords
      (JStr "urgent: account suspended") = Ret r /\
    label_of r <> Some (JStr "safe").
Proof.
  destruct (score_bounds ascii_lower demo_keywords "urgent: account suspended")
    as (_ & r & Er & _ & Htwo & _).
  exists r. split; [exact Er|]. apply Htwo. vm_compute. lia.
Defined.

Lemma scan_monotone_in_text_witness :
  fst (scan_loop ascii_lower demo_keywords (ascii_lower "Urgent")) <=
    fst (scan_loop ascii_lower demo_keywords
           (ascii_lower "Dear user, URGENT: account suspended")) /\
  snd (scan_loop ascii_lower demo_keywords (ascii_lower "Urgent")) ⊆
    snd (scan_loop ascii_lower demo_keywords
           (ascii_lower "Dear user, URGENT: account suspended")).
Proof.
  destruct (scan_monotone_in_text ascii_lower demo_keywords "Urgent"
              "Dear user, URGENT: account suspended") as (Hs & Hc & _).
  - reflexivity.
  - split; [exact Hs | exact Hc].
Defined.

Lemma load_keywords_unique_phrases_witness :
  NoDup (List.map fst [("verify now", "Social"); ("invoice", "Financial")]).
Proof.
  apply (load_keywords_unique_phrases ascii_lower ascii_strip repeated_rows).
  reflexivity.
Defined.

Lemma load_keywords_phrases_witness :
  In "invoice"
    (List.map fst [("verify now", "Social"); ("invoice", "Financial")]).
Proof.
  apply (proj2 (load_keywords_phrases ascii_lower ascii_strip repeated_rows
                  [("verify now", "Social"); ("invoice", "Financial")]
                  "invoice" eq_refl)).
  exists {| Keyword := Some "invoice"; Category := Some "Financial" |}, "invoice".
  repeat split. simpl. auto.
Defined.

Lemma load_keywords_last_row_wins_witness :
  exists keywords,
    load_keywords ascii_lower ascii_strip repeated_rows = Ret keywords /\
    assoc (ascii_lower (ascii_strip " verify now ")) keywords =
      Some (ascii_strip " Social").
Proof.
  apply (load_keywords_last_row_wins ascii_lower ascii_strip repeated_rows
           [ {| Keyword := Some "Verify Now"; Category := Some "Urgency" |};
             {| Keyword := Some "invoice"; Category := Some "Financial" |} ]
           []
           {| Keyword := Some " verify now "; Category := Some " Social" |}
           " verify now " " Social");
    first [reflexivity | discriminate | constructor].
Defined.

Lemma load_api_keys_spec_witness :
  In "gsk_b" (load_api_keys [("GROQ_API_KEY_1", ""); ("HOME", "/root");
                             ("GROQ_API_KEY_2", "gsk_b")]).
Proof.
  apply (proj2 (load_api_keys_spec
                  [("GROQ_API_KEY_1", ""); ("HOME", "/root");
                   ("GROQ_API_KEY_2", "gsk_b")] "gsk_b")).
  split; [discriminate|]. exists "GROQ_API_KEY_2".
  split; [simpl; auto | reflexivity].
Defined.

End MoreExamples.
